(** * PWMReceiver: asynchronous PWM pulse measurement

    A shallow embedding of [PWMReceiver.h] / [PWMReceiver.cpp] and the
    properties of its edge capture, change latch, pipeline registry and
    dispatcher.

    Conventions of the embedding:
    - C arrays of [PINS_COUNT] elements are lists, read with [!!] and
      written with [arr_set]; an index outside the array is undefined
      behaviour in C++ and is [None] here;
    - [uint16_t] and [unsigned long] are [Z] with the wrap-around written
      out ([uint16], [ulong]); the widths of [int] and [unsigned long]
      depend on the board and are the fields of a [Platform];
    - the filter and the transform are functions of the measured value
      (their C types return [boolean] and [unsigned long]); the [void]
      onChange handler acts on a user state [World];
    - every call through one of the three function pointers is recorded in
      a call log, in the order in which the calls are made. *)

From Stdlib Require Import ZArith Lia.
From stdpp Require Import base tactics option list sorting gmap.

(** ** Integer types *)

Class Platform := {
  int_bits : Z;
  ulong_bits : Z;
  int_bits_min : (16 <= int_bits)%Z;
  ulong_bits_min : (32 <= ulong_bits)%Z
}.

(** 8-bit AVR boards (Uno, Nano, Mega): 16-bit [int], 32-bit [long]. *)
Definition avr : Platform :=
  {| int_bits := 16; ulong_bits := 32;
     int_bits_min := ltac:(lia); ulong_bits_min := ltac:(lia) |}.

(** 32-bit boards (Due, Zero): 32-bit [int], 32-bit [long]. *)
Definition arm32 : Platform :=
  {| int_bits := 32; ulong_bits := 32;
     int_bits_min := ltac:(lia); ulong_bits_min := ltac:(lia) |}.

(** [#define PINS_COUNT 16] *)
Definition PINS_COUNT : nat := 16.

Definition uint16 (z : Z) : Z := (z mod 2 ^ 16)%Z.

Definition ulong `{Platform} (z : Z) : Z := (z mod 2 ^ ulong_bits)%Z.

(** The [int] expression [2 << pin], as the bit pattern it has in an
    [int]. *)
Definition pin_mask `{Platform} (pin : nat) : Z :=
  (Z.shiftl 2 (Z.of_nat pin) mod 2 ^ int_bits)%Z.

(** [flags & 2 << pin], as a condition. *)
Definition flag_test `{Platform} (flags : Z) (pin : nat) : bool :=
  negb (Z.land flags (pin_mask pin) =? 0)%Z.

(** [flags |= 2 << pin] on a [uint16_t]. *)
Definition flag_set `{Platform} (flags : Z) (pin : nat) : Z :=
  uint16 (Z.lor flags (pin_mask pin)).

(** ** Arrays *)

(** [a[i] = x]; writing outside the array is undefined. *)
Definition arr_set {A} (a : list A) (i : nat) (x : A) : option (list A) :=
  if decide (i < length a) then Some (<[i:=x]> a) else None.

(** ** Function pointer types and the static helpers *)

Section Receiver.
Context `{Platform} {World : Type}.

(** [OnChangeFunc]: pointer to a [void] function of an [unsigned long]. *)
Definition OnChangeFunc : Type := Z → World → World.
(** [FilterFunc]: pointer to a [boolean] function of an [unsigned long]. *)
Definition FilterFunc : Type := Z → bool.
(** [TransformFunc]: pointer to an [unsigned long] function of an
    [unsigned long]. *)
Definition TransformFunc : Type := Z → Z.

Definition any : FilterFunc := λ value, true.
Definition none : FilterFunc := λ value, false.
Definition identity : TransformFunc := λ value, value.
Definition _void : OnChangeFunc := λ value w, w.

(** ** State *)

(** The per-instance members. *)
Record PWMReceiver := {
  _onChangeFunctions : list OnChangeFunc;
  _filterFunctions : list FilterFunc;
  _transformFunctions : list TransformFunc
}.

(** The static members, shared with the interrupt service routine. *)
Record Statics := {
  _waveStarts : list Z;
  _currentValues : list Z;
  _changedFlags : Z
}.

(** The initial values of the static members: zero-initialised arrays
    and [_changedFlags = 0]. *)
Definition init_statics : Statics :=
  {| _waveStarts := replicate PINS_COUNT 0%Z;
     _currentValues := replicate PINS_COUNT 0%Z;
     _changedFlags := 0 |}.

(** One call through a function pointer of the pipeline of [pin]. *)
Inductive Call :=
| CallFilter (pin : nat) (value : Z)
| CallTransform (pin : nat) (value : Z)
| CallOnChange (pin : nat) (value : Z).

Definition call_pin (c : Call) : nat :=
  match c with
  | CallFilter pin _ | CallTransform pin _ | CallOnChange pin _ => pin
  end.

Definition is_onChange (c : Call) : bool :=
  match c with CallOnChange _ _ => true | _ => false end.

(** The whole system: the receiver object, the static members, the pins on
    which the EnableInterrupt library delivers pin-change interrupts, the
    state of the user's program, and the log of pipeline calls. *)
Record Machine := {
  receiver : PWMReceiver;
  statics : Statics;
  enabled : gset nat;
  world : World;
  calls : list Call
}.

(** The external [enableInterrupt(pin, _handleChange, CHANGE)] and
    [disableInterrupt(pin)] of the EnableInterrupt library: they switch
    the delivery of the transitions of one pin to the handler on and
    off. *)
Definition enableInterrupt (pin : nat) (e : gset nat) : gset nat := {[pin]} ∪ e.
Definition disableInterrupt (pin : nat) (e : gset nat) : gset nat := e ∖ {[pin]}.

(** ** attach / detach *)

(** [attach(arduinoPin, onChangeFunc, filterFunc, transformFunc)] *)
Definition attach_4 (arduinoPin : nat) (onChangeFunc : OnChangeFunc)
    (filterFunc : FilterFunc) (transformFunc : TransformFunc)
    (m : Machine) : option Machine :=
  let e := enableInterrupt arduinoPin (enabled m) in
  oc ← arr_set (_onChangeFunctions (receiver m)) arduinoPin onChangeFunc;
  fl ← arr_set (_filterFunctions (receiver m)) arduinoPin filterFunc;
  tr ← arr_set (_transformFunctions (receiver m)) arduinoPin transformFunc;
  Some {| receiver := {| _onChangeFunctions := oc;
                         _filterFunctions := fl;
                         _transformFunctions := tr |};
          statics := statics m;
          enabled := e;
          world := world m;
          calls := calls m |}.

(** [attach(arduinoPin, onChangeFunc, filterFunc)] *)
Definition attach_3 (arduinoPin : nat) (onChangeFunc : OnChangeFunc)
    (filterFunc : FilterFunc) (m : Machine) : option Machine :=
  attach_4 arduinoPin onChangeFunc filterFunc identity m.

(** [attach(arduinoPin, onChangeFunc)] *)
Definition attach_2 (arduinoPin : nat) (onChangeFunc : OnChangeFunc)
    (m : Machine) : option Machine :=
  attach_3 arduinoPin onChangeFunc any m.

(** [detach(arduinoPin)] *)
Definition detach (arduinoPin : nat) (m : Machine) : option Machine :=
  let e := disableInterrupt arduinoPin (enabled m) in
  oc ← arr_set (_onChangeFunctions (receiver m)) arduinoPin _void;
  fl ← arr_set (_filterFunctions (receiver m)) arduinoPin none;
  tr ← arr_set (_transformFunctions (receiver m)) arduinoPin identity;
  Some {| receiver := {| _onChangeFunctions := oc;
                         _filterFunctions := fl;
                         _transformFunctions := tr |};
          statics := statics m;
          enabled := e;
          world := world m;
          calls := calls m |}.

(** ** The interrupt service routine *)

(** [_handleChange()]: [arduinoInterruptedPin] and [arduinoPinState] are
    the variables injected by EnableInterrupt, [micros] is the value
    returned by [micros()]. *)
Definition _handleChange (arduinoInterruptedPin : nat) (arduinoPinState : Z)
    (micros : Z) (s : Statics) : option Statics :=
  let interruptedPin := arduinoInterruptedPin in
  if (0 <? arduinoPinState)%Z then
    ws ← arr_set (_waveStarts s) interruptedPin micros;
    Some {| _waveStarts := ws;
            _currentValues := _currentValues s;
            _changedFlags := _changedFlags s |}
  else
    start ← _waveStarts s !! interruptedPin;
    cv ← arr_set (_currentValues s) interruptedPin (ulong (micros - start));
    Some {| _waveStarts := _waveStarts s;
            _currentValues := cv;
            _changedFlags := flag_set (_changedFlags s) interruptedPin |}.

(** ** lookForChanges *)

(** The body of the [for] loop for one [pin]: the three function pointers
    and the value are read, then the filter is called, and if it accepts,
    the transform and then the onChange handler. *)
Definition dispatch_pin (r : PWMReceiver) (values : list Z) (pin : nat)
    (w : World) : option (World * list Call) :=
  onChangeFunc ← _onChangeFunctions r !! pin;
  filterFunc ← _filterFunctions r !! pin;
  transformFunc ← _transformFunctions r !! pin;
  currentValue ← values !! pin;
  if (filterFunc : FilterFunc) currentValue then
    let transformed := (transformFunc : TransformFunc) currentValue in
    Some ((onChangeFunc : OnChangeFunc) transformed w,
          [CallFilter pin currentValue; CallTransform pin currentValue;
           CallOnChange pin transformed])
  else Some (w, [CallFilter pin currentValue]).

(** [for (int pin = ...; pin < PINS_COUNT; pin++)], with [remaining] the
    number of iterations left, [PINS_COUNT - pin]. *)
Fixpoint for_pins (remaining : nat) (pin : nat) (r : PWMReceiver)
    (flags : Z) (values : list Z) (w : World) : option (World * list Call) :=
  match remaining with
  | O => Some (w, [])
  | S remaining' =>
      if flag_test flags pin then
        '(w1, log1) ← dispatch_pin r values pin w;
        '(w2, log2) ← for_pins remaining' (S pin) r flags values w1;
        Some (w2, log1 ++ log2)
      else for_pins remaining' (S pin) r flags values w
  end.

(** [lookForChanges()]. The local array [values] is larger than
    [_currentValues]; [memcpy] fills its first [PINS_COUNT] elements and
    only those are read. *)
Definition lookForChanges (m : Machine) : option Machine :=
  if (_changedFlags (statics m) =? 0)%Z then Some m
  else
    let flags := _changedFlags (statics m) in
    let values := _currentValues (statics m) in
    let s' := {| _waveStarts := _waveStarts (statics m);
                 _currentValues := _currentValues (statics m);
                 _changedFlags := 0 |} in
    '(w, log) ← for_pins (PINS_COUNT - 0) 0 (receiver m) flags values (world m);
    Some {| receiver := receiver m;
            statics := s';
            enabled := enabled m;
            world := w;
            calls := calls m ++ log |}.

(** ** Histories *)

(** The handler runs for a transition of [pin]. *)
Definition isr (pin : nat) (pinState micros : Z) (m : Machine)
    : option Machine :=
  s ← _handleChange pin pinState micros (statics m);
  Some {| receiver := receiver m;
          statics := s;
          enabled := enabled m;
          world := world m;
          calls := calls m |}.

(** What the program and its environment do, one after the other:
    - [Edge]: the level of a pin changes; the handler runs if the
      pin-change interrupt of that pin is enabled;
    - [Isr]: the handler runs (a transition that was latched by the
      hardware, whether or not the pin is still enabled);
    - [Poll]: the main loop calls [lookForChanges()];
    - [Attach], [Detach]: the main loop calls [attach] or [detach]. *)
Inductive Action :=
| Edge (pin : nat) (pinState micros : Z)
| Isr (pin : nat) (pinState micros : Z)
| Poll
| Attach (pin : nat) (onChangeFunc : OnChangeFunc) (filterFunc : FilterFunc)
    (transformFunc : TransformFunc)
| Detach (pin : nat).

Definition step (a : Action) (m : Machine) : option Machine :=
  match a with
  | Edge pin pinState micros =>
      if decide (pin ∈ enabled m) then isr pin pinState micros m else Some m
  | Isr pin pinState micros => isr pin pinState micros m
  | Poll => lookForChanges m
  | Attach pin onChangeFunc filterFunc transformFunc =>
      attach_4 pin onChangeFunc filterFunc transformFunc m
  | Detach pin => detach pin m
  end.

Fixpoint run (acts : list Action) (m : Machine) : option Machine :=
  match acts with
  | [] => Some m
  | a :: acts' => m' ← step a m; run acts' m'
  end.

(** The pin an action is about, if any. *)
Definition action_pin (a : Action) : option nat :=
  match a with
  | Edge pin _ _ | Isr pin _ _ | Attach pin _ _ _ | Detach pin => Some pin
  | Poll => None
  end.

(** ** Well-formed states *)

(** The arrays have [PINS_COUNT] elements and the flag register holds a
    [uint16_t]. *)
Definition wf_receiver (r : PWMReceiver) : Prop :=
  length (_onChangeFunctions r) = PINS_COUNT
  ∧ length (_filterFunctions r) = PINS_COUNT
  ∧ length (_transformFunctions r) = PINS_COUNT.

Definition wf_statics (s : Statics) : Prop :=
  length (_waveStarts s) = PINS_COUNT
  ∧ length (_currentValues s) = PINS_COUNT
  ∧ (0 ≤ _changedFlags s < 2 ^ 16)%Z.

Definition wf (m : Machine) : Prop :=
  wf_receiver (receiver m) ∧ wf_statics (statics m).

(** The pipeline installed for [pin]. *)
Definition pipeline (r : PWMReceiver) (pin : nat)
    : option (OnChangeFunc * FilterFunc * TransformFunc) :=
  onChangeFunc ← _onChangeFunctions r !! pin;
  filterFunc ← _filterFunctions r !! pin;
  transformFunc ← _transformFunctions r !! pin;
  Some (onChangeFunc, filterFunc, transformFunc).

(** The calls of a log that belong to [pin]. *)
Definition calls_on (pin : nat) (log : list Call) : list Call :=
  filter (λ c, call_pin c = pin) log.

End Receiver.

(** ** The dispatcher as the specification describes it *)

Section Described.
Context `{Platform} {World : Type}.

(** The channels whose bit is set in the mask, in increasing order. *)
Definition dirty_pins (flags : Z) : list nat :=
  filter (λ pin, flag_test flags pin = true) (seq 0 PINS_COUNT).

(** The calls of one pipeline on [value]: the filter; and, if it accepts,
    the transform and the callback on the transformed value. *)
Definition pipeline_calls (pin : nat) (filterFunc : FilterFunc)
    (transformFunc : TransformFunc) (value : Z) : list Call :=
  if filterFunc value
  then [CallFilter pin value; CallTransform pin value;
        CallOnChange pin (transformFunc value)]
  else [CallFilter pin value].

(** The effect of one pipeline on the user's state. *)
Definition pipeline_effect (onChangeFunc : @OnChangeFunc World)
    (filterFunc : FilterFunc) (transformFunc : TransformFunc) (value : Z)
    (w : World) : World :=
  if filterFunc value then onChangeFunc (transformFunc value) w else w.

Definition described_calls (r : @PWMReceiver World) (values : list Z)
    (pin : nat) : list Call :=
  match pipeline r pin, values !! pin with
  | Some (_, filterFunc, transformFunc), Some value =>
      pipeline_calls pin filterFunc transformFunc value
  | _, _ => []
  end.

Definition described_effect (r : @PWMReceiver World) (values : list Z)
    (w : World) (pin : nat) : World :=
  match pipeline r pin, values !! pin with
  | Some (onChangeFunc, filterFunc, transformFunc), Some value =>
      pipeline_effect onChangeFunc filterFunc transformFunc value w
  | _, _ => w
  end.

(** One cycle: the pipelines of the dirty channels, one after the other. *)
Definition described_cycle_calls (r : @PWMReceiver World) (flags : Z)
    (values : list Z) : list Call :=
  concat (map (described_calls r values) (dirty_pins flags)).

Definition described_cycle_effect (r : @PWMReceiver World) (flags : Z)
    (values : list Z) (w : World) : World :=
  foldl (described_effect r values) w (dirty_pins flags).

End Described.

(** ** One channel *)

(** What the state holds about one channel, and how each action changes
    it. This is the view in which the channels are independent of each
    other. *)
Section Channels.
Context `{Platform} {World : Type}.

Record Channel := {
  ch_pipeline : option (@OnChangeFunc World * FilterFunc * TransformFunc);
  ch_waveStart : option Z;
  ch_value : option Z;
  ch_dirty : bool;
  ch_enabled : bool
}.

Definition channel (pin : nat) (m : @Machine World) : Channel :=
  {| ch_pipeline := pipeline (receiver m) pin;
     ch_waveStart := _waveStarts (statics m) !! pin;
     ch_value := _currentValues (statics m) !! pin;
     ch_dirty := flag_test (_changedFlags (statics m)) pin;
     ch_enabled := bool_decide (pin ∈ enabled m) |}.

(** The handler on the channel's own pin. *)
Definition channel_capture (pin : nat) (pinState micros : Z) (c : Channel)
    : Channel :=
  if (0 <? pinState)%Z then
    {| ch_pipeline := ch_pipeline c; ch_waveStart := Some micros;
       ch_value := ch_value c; ch_dirty := ch_dirty c;
       ch_enabled := ch_enabled c |}
  else
    {| ch_pipeline := ch_pipeline c; ch_waveStart := ch_waveStart c;
       ch_value := (λ start, ulong (micros - start)) <$> ch_waveStart c;
       ch_dirty := ch_dirty c || bool_decide (pin < 15);
       ch_enabled := ch_enabled c |}.

Definition channel_next (a : @Action World) (pin : nat) (c : Channel)
    : Channel :=
  match a with
  | Edge q pinState micros =>
      if bool_decide (q = pin) && ch_enabled c
      then channel_capture pin pinState micros c else c
  | Isr q pinState micros =>
      if bool_decide (q = pin) then channel_capture pin pinState micros c
      else c
  | Poll =>
      {| ch_pipeline := ch_pipeline c; ch_waveStart := ch_waveStart c;
         ch_value := ch_value c; ch_dirty := false;
         ch_enabled := ch_enabled c |}
  | Attach q onChangeFunc filterFunc transformFunc =>
      if bool_decide (q = pin) then
        {| ch_pipeline := Some (onChangeFunc, filterFunc, transformFunc);
           ch_waveStart := ch_waveStart c; ch_value := ch_value c;
           ch_dirty := ch_dirty c; ch_enabled := true |}
      else c
  | Detach q =>
      if bool_decide (q = pin) then
        {| ch_pipeline := Some (_void, none, identity);
           ch_waveStart := ch_waveStart c; ch_value := ch_value c;
           ch_dirty := ch_dirty c; ch_enabled := false |}
      else c
  end.

(** The calls an action makes through the channel's pipeline. *)
Definition channel_calls (a : @Action World) (pin : nat) (c : Channel)
    : list Call :=
  match a with
  | Poll =>
      if ch_dirty c then
        match ch_pipeline c, ch_value c with
        | Some (_, filterFunc, transformFunc), Some value =>
            pipeline_calls pin filterFunc transformFunc value
        | _, _ => []
        end
      else []
  | _ => []
  end.

(** Every pin an action names is a pin of the receiver. *)
Definition in_range (a : @Action World) : Prop :=
  match action_pin a with Some pin => pin < PINS_COUNT | None => True end.

(** An action is a transition of a pin or a run of the handler. *)
Definition is_capture (a : @Action World) : bool :=
  match a with Edge _ _ _ | Isr _ _ _ => true | _ => false end.

(** An action is a transition or a run of the handler on [pin], or a
    poll. *)
Definition capture_or_poll (pin : nat) (a : @Action World) : bool :=
  match a with
  | Edge q _ _ | Isr q _ _ => bool_decide (q = pin)
  | Poll => true
  | _ => false
  end.

(** An action attaches a pipeline to [pin]. *)
Definition attaches (pin : nat) (a : @Action World) : bool :=
  match a with Attach q _ _ _ => bool_decide (q = pin) | _ => false end.

(** An action completes no pulse: it is not a falling edge. *)
Definition no_falling (a : @Action World) : bool :=
  match a with
  | Edge _ pinState _ | Isr _ pinState _ => (0 <? pinState)%Z
  | _ => true
  end.

(** A value is an [unsigned long]; a call of a filter or a transform is
    made on an [unsigned long]. *)
Definition is_ulong (v : Z) : Prop := (0 ≤ v < 2 ^ ulong_bits)%Z.

Definition call_on_ulong (c : Call) : Prop :=
  match c with
  | CallFilter _ v | CallTransform _ v => is_ulong v
  | CallOnChange _ _ => True
  end.

End Channels.

(** ** The snapshot under interrupts *)

(** [lookForChanges()] up to its [for] loop, statement by statement, with
    the handler running between two statements whenever interrupts are
    enabled. The handler itself is not interrupted. *)
Module Interleaving.
Section Model.
Context `{Platform}.

(** The statement the main program executes next. *)
Inductive PC :=
| AtCheck            (* if(_changedFlags) *)
| AtNoInterrupts     (* noInterrupts(); *)
| AtCopyFlags        (* uint16_t flags = _changedFlags; *)
| AtMemcpy (i : nat) (* memcpy(values, _currentValues, ...), element i *)
| AtClearFlags       (* _changedFlags = 0; *)
| AtInterrupts       (* interrupts(); *)
| AtLoop             (* the for loop, which works on the local copies *)
| AtReturn.          (* the register was empty: nothing to do *)

Record System := {
  shared : Statics;
  interruptsOn : bool;
  pc : PC;
  flags : Z;
  values : list Z
}.

Definition goto (l : PC) (s : System) : System :=
  {| shared := shared s; interruptsOn := interruptsOn s; pc := l;
     flags := flags s; values := values s |}.

Definition main_step (s : System) : option System :=
  match pc s with
  | AtCheck =>
      if (_changedFlags (shared s) =? 0)%Z
      then Some (goto AtReturn s) else Some (goto AtNoInterrupts s)
  | AtNoInterrupts =>
      Some {| shared := shared s; interruptsOn := false; pc := AtCopyFlags;
              flags := flags s; values := values s |}
  | AtCopyFlags =>
      Some {| shared := shared s; interruptsOn := interruptsOn s;
              pc := AtMemcpy 0;
              flags := _changedFlags (shared s); values := values s |}
  | AtMemcpy i =>
      if decide (i < PINS_COUNT) then
        v ← _currentValues (shared s) !! i;
        vs ← arr_set (values s) i v;
        Some {| shared := shared s; interruptsOn := interruptsOn s;
                pc := AtMemcpy (S i); flags := flags s; values := vs |}
      else Some (goto AtClearFlags s)
  | AtClearFlags =>
      Some {| shared := {| _waveStarts := _waveStarts (shared s);
                           _currentValues := _currentValues (shared s);
                           _changedFlags := 0 |};
              interruptsOn := interruptsOn s; pc := AtInterrupts;
              flags := flags s; values := values s |}
  | AtInterrupts =>
      Some {| shared := shared s; interruptsOn := true; pc := AtLoop;
              flags := flags s; values := values s |}
  | AtLoop => Some s
  | AtReturn => Some s
  end.

(** What happens next: the main program executes its next statement, or a
    pin changes. While interrupts are disabled the handler does not run;
    the transition stays pending. *)
Inductive Event :=
| Main
| Irq (pin : nat) (pinState micros : Z).

Definition sys_step (e : Event) (s : System) : option System :=
  match e with
  | Main => main_step s
  | Irq pin pinState micros =>
      if interruptsOn s then
        sh ← _handleChange pin pinState micros (shared s);
        Some {| shared := sh; interruptsOn := interruptsOn s; pc := pc s;
                flags := flags s; values := values s |}
      else Some s
  end.

Fixpoint exec (schedule : list Event) (s : System) : option System :=
  match schedule with
  | [] => Some s
  | e :: schedule' => s' ← sys_step e s; exec schedule' s'
  end.

(** [lookForChanges()] is entered with interrupts enabled. *)
Definition entry (s : System) : Prop :=
  pc s = AtCheck ∧ interruptsOn s = true
  ∧ wf_statics (shared s) ∧ length (values s) = PINS_COUNT.

(** The statics after [_changedFlags = 0]. *)
Definition cleared (sh : Statics) : Statics :=
  {| _waveStarts := _waveStarts sh;
     _currentValues := _currentValues sh;
     _changedFlags := 0 |}.

(** Where the main program is inside the critical section, with [x] the
    statics at the moment interrupts were disabled. *)
Definition in_critical_section (x : Statics) (s : System) : Prop :=
  interruptsOn s = false ∧ shared s = x
  ∧ length (values s) = PINS_COUNT ∧ length (_currentValues x) = PINS_COUNT
  ∧ match pc s with
    | AtCopyFlags => True
    | AtMemcpy i =>
        flags s = _changedFlags x ∧ i ≤ PINS_COUNT
        ∧ take i (values s) = take i (_currentValues x)
    | AtClearFlags => flags s = _changedFlags x ∧ values s = _currentValues x
    | _ => False
    end.


(** The statements between [noInterrupts()] and [interrupts()],
    inclusive of the latter. *)
Definition critical (l : PC) : bool :=
  match l with
  | AtCopyFlags | AtMemcpy _ | AtClearFlags | AtInterrupts => true
  | _ => false
  end.

End Model.
End Interleaving.

(** ** A sample program *)

(** A handler that appends the delivered value to a list. *)
Definition store : @OnChangeFunc (list Z) := λ value w, w ++ [value].

(** A receiver with every channel detached, and the state of a sketch at
    power-on that holds it. *)
Definition detached_receiver : @PWMReceiver (list Z) :=
  {| _onChangeFunctions := replicate PINS_COUNT _void;
     _filterFunctions := replicate PINS_COUNT none;
     _transformFunctions := replicate PINS_COUNT identity |}.

Definition power_on : @Machine (list Z) :=
  {| receiver := detached_receiver;
     statics := init_statics;
     enabled := ∅;
     world := [];
     calls := [] |}.

(** A state in which [store] is attached to channel 2 and a pulse of
    1500 microseconds has completed on it. *)
Definition pending : @Machine (list Z) :=
  {| receiver :=
       {| _onChangeFunctions := <[2:=store]> (replicate PINS_COUNT _void);
          _filterFunctions := <[2:=any]> (replicate PINS_COUNT none);
          _transformFunctions := replicate PINS_COUNT identity |};
     statics :=
       {| _waveStarts := <[2:=1000%Z]> (replicate PINS_COUNT 0%Z);
          _currentValues := <[2:=1500%Z]> (replicate PINS_COUNT 0%Z);
          _changedFlags := 8 |};
     enabled := {[2]};
     world := [];
     calls := [] |}.

(** [lookForChanges()] is entered in that state, and channel 5 sees a
    pulse while it runs: the rising edge before the flag check, the
    falling edge during the copy (where it stays pending) and again after
    interrupts are enabled. *)
Definition pending_entry : Interleaving.System :=
  {| Interleaving.shared := statics pending;
     Interleaving.interruptsOn := true;
     Interleaving.pc := Interleaving.AtCheck;
     Interleaving.flags := 0;
     Interleaving.values := replicate PINS_COUNT 0%Z |}.

Definition pending_schedule : list Interleaving.Event :=
  [Interleaving.Irq 5 1 100; Interleaving.Main; Interleaving.Main;
   Interleaving.Main; Interleaving.Main; Interleaving.Irq 5 0 400]
  ++ replicate 18 Interleaving.Main
  ++ [Interleaving.Irq 5 0 400].

(** The state in which that run ends. *)
Definition pending_snapshot : Interleaving.System :=
  Eval vm_compute in
    default pending_entry
      (@Interleaving.exec avr pending_schedule pending_entry).

(** A state in which [store] is attached to the channels 2 and 5, with
    the accept-all filter and the identity transform, and nothing is
    pending. *)
Definition idle : @Machine (list Z) :=
  {| receiver :=
       {| _onChangeFunctions :=
            <[5:=store]> (<[2:=store]> (replicate PINS_COUNT _void));
          _filterFunctions :=
            <[5:=any]> (<[2:=any]> (replicate PINS_COUNT none));
          _transformFunctions := replicate PINS_COUNT identity |};
     statics := init_statics;
     enabled := {[2; 5]};
     world := [];
     calls := [] |}.

(** A state in which three channels are attached: channel 2 with the
    defaults, channel 5 with a filter that accepts durations above 1000
    only, channel 9 with a transform that halves the duration. *)
Definition three_channels : @Machine (list Z) :=
  {| receiver :=
       {| _onChangeFunctions :=
            <[9:=store]> (<[5:=store]> (<[2:=store]>
              (replicate PINS_COUNT _void)));
          _filterFunctions :=
            <[9:=any]> (<[5:=(λ x, 1000 <? x)%Z]> (<[2:=any]>
              (replicate PINS_COUNT none)));
          _transformFunctions :=
            <[9:=(λ x, x / 2)%Z]> (replicate PINS_COUNT identity) |};
     statics := init_statics;
     enabled := {[2; 5; 9]};
     world := [];
     calls := [] |}.

(** One pulse on channel 9, then one on channel 2, one on channel 5 and a
    second one on channel 2, and the state they leave. *)
Definition busy_history : list (@Action (list Z)) :=
  [Edge 9 1 0; Edge 9 0 800; Edge 2 1 100; Edge 2 0 600;
   Edge 5 1 1000; Edge 5 0 1300; Edge 2 1 2000; Edge 2 0 3500].

Definition busy : @Machine (list Z) :=
  {| receiver := receiver three_channels;
     statics :=
       {| _waveStarts :=
            <[9:=0%Z]> (<[5:=1000%Z]> (<[2:=2000%Z]>
              (replicate PINS_COUNT 0%Z)));
          _currentValues :=
            <[9:=800%Z]> (<[5:=300%Z]> (<[2:=1500%Z]>
              (replicate PINS_COUNT 0%Z)));
          _changedFlags := 1096 |};
     enabled := {[2; 5; 9]};
     world := [];
     calls := [] |}.

(** * Properties *)

(** ** The flag register *)

Section Flags.
Context `{Platform}.
Local Open Scope Z_scope.

Lemma pin_mask_testbit (pin : nat) (i : Z) :
  0 ≤ i →
  Z.testbit (pin_mask pin) i = (i =? Z.of_nat pin + 1) && (i <? int_bits).
Proof.
  intros Hi. unfold pin_mask.
  pose proof int_bits_min.
  rewrite Z.testbit_mod_pow2 by lia.
  rewrite Z.shiftl_mul_pow2 by lia.
  replace (2 * 2 ^ Z.of_nat pin) with (2 ^ (Z.of_nat pin + 1))
    by (rewrite Z.pow_add_r by lia; lia).
  rewrite Z.pow2_bits_eqb by lia.
  rewrite andb_comm. f_equal. apply Z.eqb_sym.
Qed.

Lemma pin_mask_nonneg (pin : nat) : 0 ≤ pin_mask pin.
Proof.
  unfold pin_mask. pose proof int_bits_min.
  apply Z.mod_pos_bound. apply Z.pow_pos_nonneg; lia.
Qed.

Lemma uint16_range (z : Z) : 0 ≤ uint16 z < 2 ^ 16.
Proof. unfold uint16. apply Z.mod_pos_bound. lia. Qed.

Lemma uint16_testbit_high (flags i : Z) :
  0 ≤ flags < 2 ^ 16 → 16 ≤ i → Z.testbit flags i = false.
Proof.
  intros Hf Hi. rewrite <- (Z.mod_small flags (2 ^ 16)) by lia.
  apply Z.mod_pow2_bits_high. lia.
Qed.

(** The test [flags & 2 << pin] reads bit [pin + 1] of the register. *)
Lemma flag_test_testbit (flags : Z) (pin : nat) :
  0 ≤ flags < 2 ^ 16 →
  flag_test flags pin = Z.testbit flags (Z.of_nat pin + 1).
Proof.
  intros Hf. unfold flag_test.
  destruct (Z.testbit flags (Z.of_nat pin + 1)) eqn:Hb.
  - apply negb_true_iff, Z.eqb_neq. intros Hz.
    assert (Hl : Z.testbit (Z.land flags (pin_mask pin)) (Z.of_nat pin + 1) = true).
    { rewrite Z.land_spec, Hb, pin_mask_testbit by lia.
      rewrite Z.eqb_refl. simpl. apply Z.ltb_lt.
      pose proof int_bits_min.
      destruct (Z_lt_dec (Z.of_nat pin + 1) 16); [lia|].
      rewrite uint16_testbit_high in Hb by lia. discriminate. }
    rewrite Hz, Z.bits_0 in Hl. discriminate.
  - apply negb_false_iff, Z.eqb_eq. apply Z.bits_inj'. intros i Hi.
    rewrite Z.land_spec, Z.bits_0, pin_mask_testbit by lia.
    destruct (Z.eqb_spec i (Z.of_nat pin + 1)) as [->|]; [|by rewrite andb_false_r].
    by rewrite Hb.
Qed.

Lemma flag_set_range (flags : Z) (pin : nat) :
  0 ≤ flag_set flags pin < 2 ^ 16.
Proof. apply uint16_range. Qed.

Lemma flag_set_testbit (flags : Z) (pin : nat) (i : Z) :
  0 ≤ flags < 2 ^ 16 → 0 ≤ i →
  Z.testbit (flag_set flags pin) i
  = Z.testbit flags i || ((i =? Z.of_nat pin + 1) && (i <? 16)).
Proof.
  intros Hf Hi. unfold flag_set, uint16.
  pose proof int_bits_min.
  rewrite Z.testbit_mod_pow2, Z.lor_spec, pin_mask_testbit by lia.
  destruct (Z.ltb_spec i 16).
  - simpl. rewrite andb_true_r. f_equal.
    destruct (Z.eqb_spec i (Z.of_nat pin + 1)); [|done].
    simpl. apply Z.ltb_lt. lia.
  - simpl. rewrite andb_false_r, orb_false_r.
    symmetry. apply uint16_testbit_high; lia.
Qed.

(** Setting the flag of [p] makes the test of [q] succeed exactly when it
    succeeded before or [q] is [p] and [p] is below 15. *)
Lemma flag_test_set (flags : Z) (p q : nat) :
  0 ≤ flags < 2 ^ 16 →
  flag_test (flag_set flags p) q
  = flag_test flags q || (bool_decide (q = p) && bool_decide (p < 15)%nat).
Proof.
  intros Hf.
  rewrite !flag_test_testbit by (done || apply flag_set_range).
  rewrite flag_set_testbit by lia. f_equal.
  destruct (decide (q = p)) as [->|Hne].
  - rewrite Z.eqb_refl, bool_decide_eq_true_2 by done. simpl.
    destruct (decide (p < 15)%nat).
    + rewrite bool_decide_eq_true_2 by done. apply Z.ltb_lt. lia.
    + rewrite bool_decide_eq_false_2 by done. apply Z.ltb_ge. lia.
  - rewrite (bool_decide_eq_false_2 (q = p)) by done.
    simpl. rewrite andb_false_iff. left. apply Z.eqb_neq. lia.
Qed.

Lemma flag_test_0 (pin : nat) : flag_test 0 pin = false.
Proof. unfold flag_test. by rewrite Z.land_0_l. Qed.

(** On channel 15 the flag is bit 16, which a [uint16_t] does not have:
    setting it changes nothing. *)
Lemma flag_set_15 (flags : Z) :
  0 ≤ flags < 2 ^ 16 → flag_set flags 15 = flags.
Proof.
  intros Hf. apply Z.bits_inj'. intros i Hi.
  rewrite flag_set_testbit by lia.
  destruct (Z.eqb_spec i (Z.of_nat 15 + 1)) as [->|]; [|by rewrite orb_false_r].
  simpl. by rewrite orb_false_r.
Qed.

Lemma flag_test_15 (flags : Z) :
  0 ≤ flags < 2 ^ 16 → flag_test flags 15 = false.
Proof.
  intros Hf. rewrite flag_test_testbit by done.
  apply uint16_testbit_high; [done|lia].
Qed.

(** The mask of channel 15 is zero in a 16-bit [int] and bit 16 in a
    32-bit [int]; channel 14 uses the top bit of the register. *)
Example pin_mask_top :
  @pin_mask avr 15 = 0%Z ∧ @pin_mask arm32 15 = 65536%Z
  ∧ @pin_mask avr 14 = 32768%Z ∧ @pin_mask arm32 14 = 32768%Z
  ∧ @pin_mask avr 0 = 2%Z.
Proof. by vm_compute. Qed.

End Flags.

(** ** Arrays *)

Lemma arr_set_Some {A} (a : list A) (i : nat) (x : A) :
  i < length a → arr_set a i x = Some (<[i:=x]> a).
Proof. intros Hi. unfold arr_set. by rewrite decide_True. Qed.

Lemma arr_set_inv {A} (a a' : list A) (i : nat) (x : A) :
  arr_set a i x = Some a' → i < length a ∧ a' = <[i:=x]> a.
Proof. unfold arr_set. case_decide; naive_solver. Qed.

Lemma arr_set_length {A} (a a' : list A) (i : nat) (x : A) :
  arr_set a i x = Some a' → length a' = length a.
Proof. intros [_ ->]%arr_set_inv. apply length_insert. Qed.

(** ** Edge capture *)

Section Capture.
Context `{Platform}.

Lemma handleChange_rising (pin : nat) (pinState micros : Z) (s : Statics) :
  wf_statics s → pin < PINS_COUNT → (0 < pinState)%Z →
  _handleChange pin pinState micros s
  = Some {| _waveStarts := <[pin:=micros]> (_waveStarts s);
            _currentValues := _currentValues s;
            _changedFlags := _changedFlags s |}.
Proof.
  intros (Hws & _ & _) Hpin Hst. unfold _handleChange.
  replace (0 <? pinState)%Z with true by (symmetry; apply Z.ltb_lt; lia).
  rewrite arr_set_Some by lia. done.
Qed.

Lemma handleChange_falling (pin : nat) (pinState micros : Z) (s : Statics) :
  wf_statics s → pin < PINS_COUNT → (pinState ≤ 0)%Z →
  ∃ start, _waveStarts s !! pin = Some start
    ∧ _handleChange pin pinState micros s
      = Some {| _waveStarts := _waveStarts s;
                _currentValues :=
                  <[pin:=ulong (micros - start)]> (_currentValues s);
                _changedFlags := flag_set (_changedFlags s) pin |}.
Proof.
  intros (Hws & Hcv & _) Hpin Hst. unfold _handleChange.
  replace (0 <? pinState)%Z with false by (symmetry; apply Z.ltb_ge; lia).
  destruct (lookup_lt_is_Some_2 (_waveStarts s) pin) as [start Hstart]; [lia|].
  exists start. split; [done|].
  rewrite Hstart. simpl. rewrite arr_set_Some by lia. done.
Qed.

Lemma handleChange_wf (pin : nat) (pinState micros : Z) (s s' : Statics) :
  wf_statics s → _handleChange pin pinState micros s = Some s' → wf_statics s'.
Proof.
  intros (Hws & Hcv & Hfl). unfold _handleChange.
  destruct (0 <? pinState)%Z; intros Hs; simplify_option_eq.
  - match goal with Ha : arr_set _ _ _ = Some _ |- _ =>
      apply arr_set_length in Ha end.
    repeat split; simpl; lia.
  - match goal with Ha : arr_set _ _ _ = Some _ |- _ =>
      apply arr_set_length in Ha end.
    repeat split; simpl; try lia; apply flag_set_range.
Qed.

Lemma handleChange_is_Some (pin : nat) (pinState micros : Z) (s : Statics) :
  wf_statics s → pin < PINS_COUNT →
  is_Some (_handleChange pin pinState micros s).
Proof.
  intros Hwf Hpin. destruct (Z_lt_dec 0 pinState).
  - rewrite handleChange_rising by done. eauto.
  - destruct (handleChange_falling pin pinState micros s) as (? & _ & ->);
      [done|done|lia|eauto].
Qed.

(** The handler touches the wave start, the value and the flag of the
    interrupted pin only. *)
Lemma handleChange_frame (a b : nat) (pinState micros : Z) (s s' : Statics) :
  wf_statics s → a ≠ b →
  _handleChange a pinState micros s = Some s' →
  _waveStarts s' !! b = _waveStarts s !! b
  ∧ _currentValues s' !! b = _currentValues s !! b
  ∧ flag_test (_changedFlags s') b = flag_test (_changedFlags s) b.
Proof.
  intros (Hws & Hcv & Hfl) Hab. unfold _handleChange.
  destruct (0 <? pinState)%Z; intros Hs; simplify_option_eq.
  - match goal with Ha : arr_set _ _ _ = Some _ |- _ =>
      apply arr_set_inv in Ha as [_ ->] end.
    by rewrite list_lookup_insert_ne.
  - match goal with Ha : arr_set _ _ _ = Some _ |- _ =>
      apply arr_set_inv in Ha as [_ ->] end.
    rewrite list_lookup_insert_ne by done.
    rewrite flag_test_set by done.
    rewrite (bool_decide_eq_false_2 (b = a)) by done.
    by rewrite orb_false_r.
Qed.

End Capture.

(** ** The dispatcher *)

Section Dispatch.
Context `{Platform} {World : Type}.
Implicit Types (r : @PWMReceiver World) (m : @Machine World) (w : World).

Lemma pipeline_is_Some r (pin : nat) :
  wf_receiver r → pin < PINS_COUNT → is_Some (pipeline r pin).
Proof.
  intros (Hoc & Hfl & Htr) Hpin. unfold pipeline.
  destruct (lookup_lt_is_Some_2 (_onChangeFunctions r) pin) as [? ->]; [lia|].
  destruct (lookup_lt_is_Some_2 (_filterFunctions r) pin) as [? ->]; [lia|].
  destruct (lookup_lt_is_Some_2 (_transformFunctions r) pin) as [? ->]; [lia|].
  simpl. eauto.
Qed.

Lemma dispatch_pin_described r (values : list Z) (pin : nat) w :
  wf_receiver r → length values = PINS_COUNT → pin < PINS_COUNT →
  dispatch_pin r values pin w
  = Some (described_effect r values w pin, described_calls r values pin).
Proof.
  intros (Hoc & Hfl & Htr) Hv Hpin.
  unfold dispatch_pin, described_effect, described_calls, pipeline,
    pipeline_effect, pipeline_calls.
  destruct (lookup_lt_is_Some_2 (_onChangeFunctions r) pin) as [oc ->]; [lia|].
  destruct (lookup_lt_is_Some_2 (_filterFunctions r) pin) as [fl ->]; [lia|].
  destruct (lookup_lt_is_Some_2 (_transformFunctions r) pin) as [tr ->]; [lia|].
  destruct (lookup_lt_is_Some_2 values pin) as [v ->]; [lia|].
  simpl. by destruct (fl v).
Qed.

(** The loop from [pin] on runs the pipelines of the dirty channels among
    the remaining ones, in increasing order. *)
Lemma for_pins_described (remaining pin : nat) r (flags : Z)
    (values : list Z) w :
  wf_receiver r → length values = PINS_COUNT →
  pin + remaining ≤ PINS_COUNT →
  for_pins remaining pin r flags values w
  = Some (foldl (described_effect r values) w
            (filter (λ p, flag_test flags p = true) (seq pin remaining)),
          concat (map (described_calls r values)
            (filter (λ p, flag_test flags p = true) (seq pin remaining)))).
Proof.
  intros Hr Hv. revert pin w.
  induction remaining as [|n IH]; intros pin w Hle; [done|].
  simpl seq. simpl for_pins.
  destruct (flag_test flags pin) eqn:Hd.
  - rewrite filter_cons_True by done.
    rewrite dispatch_pin_described by (done || lia). simpl.
    rewrite IH by lia. done.
  - rewrite filter_cons_False by (by rewrite Hd).
    apply IH. lia.
Qed.

Lemma dirty_pins_0 : dirty_pins 0 = [].
Proof.
  unfold dirty_pins. induction (seq 0 PINS_COUNT) as [|p l IH]; [done|].
  rewrite filter_cons_False; [done|]. by rewrite flag_test_0.
Qed.

(** [lookForChanges()] returns, and one cycle is the described one. *)
Lemma lookForChanges_described m :
  wf m →
  lookForChanges m
  = Some {| receiver := receiver m;
            statics := {| _waveStarts := _waveStarts (statics m);
                          _currentValues := _currentValues (statics m);
                          _changedFlags := 0 |};
            enabled := enabled m;
            world := described_cycle_effect (receiver m)
                       (_changedFlags (statics m))
                       (_currentValues (statics m)) (world m);
            calls := calls m ++ described_cycle_calls (receiver m)
                       (_changedFlags (statics m))
                       (_currentValues (statics m)) |}.
Proof.
  intros (Hr & Hws & Hcv & Hfl). unfold lookForChanges.
  destruct (Z.eqb_spec (_changedFlags (statics m)) 0) as [Hz|Hnz].
  - unfold described_cycle_effect, described_cycle_calls.
    rewrite Hz, dirty_pins_0. simpl. rewrite app_nil_r.
    destruct m as [r [ws cv fl] e w c]. simpl in *. by subst.
  - rewrite for_pins_described by (done || (unfold PINS_COUNT; lia)).
    done.
Qed.

Lemma lookForChanges_wf m m' : wf m → lookForChanges m = Some m' → wf m'.
Proof.
  intros Hwf. rewrite lookForChanges_described by done.
  intros [= <-]. destruct Hwf as (Hr & Hws & Hcv & Hfl).
  split; [done|]. split; [done|]. split; [done|]. simpl. lia.
Qed.

End Dispatch.

(** ** The registry *)

Section Registry.
Context `{Platform} {World : Type}.
Implicit Types (r : @PWMReceiver World) (m : @Machine World) (w : World).

Lemma attach_4_Some (pin : nat) (oc : @OnChangeFunc World) (fl : FilterFunc)
    (tr : TransformFunc) m :
  wf m → pin < PINS_COUNT →
  attach_4 pin oc fl tr m
  = Some {| receiver :=
              {| _onChangeFunctions := <[pin:=oc]> (_onChangeFunctions (receiver m));
                 _filterFunctions := <[pin:=fl]> (_filterFunctions (receiver m));
                 _transformFunctions := <[pin:=tr]> (_transformFunctions (receiver m)) |};
            statics := statics m;
            enabled := enableInterrupt pin (enabled m);
            world := world m;
            calls := calls m |}.
Proof.
  intros ((Hoc & Hfl & Htr) & _) Hpin. unfold attach_4.
  rewrite !arr_set_Some by lia. done.
Qed.

Lemma detach_Some (pin : nat) m :
  wf m → pin < PINS_COUNT →
  detach pin m
  = Some {| receiver :=
              {| _onChangeFunctions := <[pin:=_void]> (_onChangeFunctions (receiver m));
                 _filterFunctions := <[pin:=none]> (_filterFunctions (receiver m));
                 _transformFunctions := <[pin:=identity]> (_transformFunctions (receiver m)) |};
            statics := statics m;
            enabled := disableInterrupt pin (enabled m);
            world := world m;
            calls := calls m |}.
Proof.
  intros ((Hoc & Hfl & Htr) & _) Hpin. unfold detach.
  rewrite !arr_set_Some by lia. done.
Qed.

Lemma pipeline_insert r (pin q : nat) (oc : @OnChangeFunc World)
    (fl : FilterFunc) (tr : TransformFunc) :
  wf_receiver r → pin < PINS_COUNT →
  pipeline {| _onChangeFunctions := <[pin:=oc]> (_onChangeFunctions r);
              _filterFunctions := <[pin:=fl]> (_filterFunctions r);
              _transformFunctions := <[pin:=tr]> (_transformFunctions r) |} q
  = if bool_decide (pin = q) then Some (oc, fl, tr) else pipeline r q.
Proof.
  intros (Hoc & Hfl & Htr) Hpin. unfold pipeline. simpl.
  case_bool_decide as Hq.
  - subst q. rewrite !list_lookup_insert_eq by lia. done.
  - rewrite !list_lookup_insert_ne by done. done.
Qed.

Lemma wf_receiver_insert r (pin : nat) (oc : @OnChangeFunc World)
    (fl : FilterFunc) (tr : TransformFunc) :
  wf_receiver r →
  wf_receiver {| _onChangeFunctions := <[pin:=oc]> (_onChangeFunctions r);
                 _filterFunctions := <[pin:=fl]> (_filterFunctions r);
                 _transformFunctions := <[pin:=tr]> (_transformFunctions r) |}.
Proof.
  intros (Hoc & Hfl & Htr). unfold wf_receiver. simpl.
  by rewrite !length_insert.
Qed.

End Registry.

(** ** Call logs *)

Section Logs.
Context `{Platform} {World : Type}.
Implicit Types (r : @PWMReceiver World) (m : @Machine World) (w : World).

Lemma calls_on_app (pin : nat) (l1 l2 : list Call) :
  calls_on pin (l1 ++ l2) = calls_on pin l1 ++ calls_on pin l2.
Proof. apply filter_app. Qed.

Lemma calls_on_pipeline_calls (p q : nat) (fl : FilterFunc)
    (tr : TransformFunc) (v : Z) :
  calls_on p (pipeline_calls q fl tr v)
  = if bool_decide (q = p) then pipeline_calls q fl tr v else [].
Proof.
  unfold pipeline_calls, calls_on.
  case_bool_decide as Hq; destruct (fl v);
    repeat (rewrite filter_cons_True by done);
    repeat (rewrite filter_cons_False by done); done.
Qed.

Lemma calls_on_described_calls (p q : nat) r (values : list Z) :
  calls_on p (described_calls r values q)
  = if bool_decide (q = p) then described_calls r values q else [].
Proof.
  unfold described_calls.
  destruct (pipeline r q) as [[[oc fl] tr]|]; [|by case_bool_decide].
  destruct (values !! q) as [v|]; [|by case_bool_decide].
  apply calls_on_pipeline_calls.
Qed.

Lemma calls_on_concat (p : nat) r (values : list Z) (l : list nat) :
  NoDup l →
  calls_on p (concat (map (described_calls r values) l))
  = if bool_decide (p ∈ l) then described_calls r values p else [].
Proof.
  induction 1 as [|q l Hq Hl IH]; [done|].
  simpl. rewrite calls_on_app, calls_on_described_calls, IH.
  destruct (decide (q = p)) as [->|Hqp].
  - rewrite (bool_decide_eq_false_2 (p ∈ l)) by done.
    rewrite !bool_decide_eq_true_2 by set_solver. apply app_nil_r.
  - rewrite (bool_decide_eq_false_2 (q = p)) by done.
    simpl. rewrite (bool_decide_ext (p ∈ q :: l) (p ∈ l)); [done|].
    rewrite elem_of_cons.
    split; [intros [Heq|Hin]; [congruence|done] | by right].
Qed.

Lemma NoDup_dirty_pins (flags : Z) : NoDup (dirty_pins flags).
Proof. apply NoDup_filter, NoDup_seq. Qed.

Lemma elem_of_dirty_pins (flags : Z) (p : nat) :
  p ∈ dirty_pins flags ↔ flag_test flags p = true ∧ p < PINS_COUNT.
Proof.
  unfold dirty_pins. rewrite list_elem_of_filter, elem_of_seq.
  intuition lia.
Qed.

Lemma flag_test_true_lt (flags : Z) (p : nat) :
  (0 ≤ flags < 2 ^ 16)%Z → flag_test flags p = true → p < 15.
Proof.
  intros Hf Hp. rewrite flag_test_testbit in Hp by done.
  destruct (decide (p < 15)); [done|].
  rewrite uint16_testbit_high in Hp by (done || lia). done.
Qed.

(** The calls of one cycle that belong to one channel: its pipeline, once,
    if its flag is set. *)
Lemma calls_on_cycle (p : nat) r (flags : Z) (values : list Z) :
  (0 ≤ flags < 2 ^ 16)%Z →
  calls_on p (described_cycle_calls r flags values)
  = if flag_test flags p then described_calls r values p else [].
Proof.
  intros Hf. unfold described_cycle_calls.
  rewrite calls_on_concat by apply NoDup_dirty_pins.
  destruct (flag_test flags p) eqn:Hp.
  - rewrite bool_decide_eq_true_2; [done|].
    apply elem_of_dirty_pins. split; [done|].
    apply flag_test_true_lt in Hp; [|done]. unfold PINS_COUNT. lia.
  - rewrite bool_decide_eq_false_2; [done|].
    rewrite elem_of_dirty_pins. intros [? _]. congruence.
Qed.

End Logs.

(** ** Histories *)

Section Histories.
Context `{Platform} {World : Type}.
Implicit Types (r : @PWMReceiver World) (m : @Machine World) (w : World)
  (a : @Action World) (acts : list (@Action World)).

Lemma handleChange_in_range (pin : nat) (pinState micros : Z) (s s' : Statics) :
  wf_statics s → _handleChange pin pinState micros s = Some s' →
  pin < PINS_COUNT.
Proof.
  intros (Hws & Hcv & _). unfold _handleChange.
  destruct (0 <? pinState)%Z; intros Hs; simplify_option_eq;
    match goal with Ha : arr_set _ _ _ = Some _ |- _ =>
      apply arr_set_inv in Ha as [Hlt _] end; lia.
Qed.

Lemma isr_inv (pin : nat) (pinState micros : Z) m m' :
  isr pin pinState micros m = Some m' →
  ∃ s', _handleChange pin pinState micros (statics m) = Some s'
    ∧ m' = {| receiver := receiver m; statics := s'; enabled := enabled m;
              world := world m; calls := calls m |}.
Proof.
  unfold isr. intros Hm.
  destruct (_handleChange pin pinState micros (statics m)) as [s'|];
    simplify_eq/=. eauto.
Qed.

Lemma step_wf a m m' : wf m → step a m = Some m' → wf m'.
Proof.
  intros Hwf Hstep. destruct a as [q st t|q st t| |q oc fl tr|q]; simpl in Hstep.
  - case_decide; [|by simplify_eq].
    apply isr_inv in Hstep as (s' & Hs & ->).
    destruct Hwf as [Hr Hs0]. split; [done|]. by eapply handleChange_wf.
  - apply isr_inv in Hstep as (s' & Hs & ->).
    destruct Hwf as [Hr Hs0]. split; [done|]. by eapply handleChange_wf.
  - by eapply lookForChanges_wf.
  - assert (q < PINS_COUNT) as Hq.
    { destruct Hwf as ((Hoc & _) & _). unfold attach_4 in Hstep.
      destruct (arr_set (_onChangeFunctions (receiver m)) q oc) eqn:Ha;
        [|done]. apply arr_set_inv in Ha as [? _]. lia. }
    rewrite attach_4_Some in Hstep by done. simplify_eq.
    destruct Hwf as [Hr Hs0]. split; [|done]. by apply wf_receiver_insert.
  - assert (q < PINS_COUNT) as Hq.
    { destruct Hwf as ((Hoc & _) & _). unfold detach in Hstep.
      destruct (arr_set (_onChangeFunctions (receiver m)) q _void) eqn:Ha;
        [|done]. apply arr_set_inv in Ha as [? _]. lia. }
    rewrite detach_Some in Hstep by done. simplify_eq.
    destruct Hwf as [Hr Hs0]. split; [|done]. by apply wf_receiver_insert.
Qed.

Lemma isr_is_Some (pin : nat) (pinState micros : Z) m :
  wf m → pin < PINS_COUNT → is_Some (isr pin pinState micros m).
Proof.
  intros [_ Hs] Hpin. unfold isr.
  destruct (handleChange_is_Some pin pinState micros (statics m)) as [s' ->];
    [done|done|]. simpl. eauto.
Qed.

(** No action on a pin of the receiver fails. *)
Lemma step_is_Some a m : wf m → in_range a → is_Some (step a m).
Proof.
  intros Hwf Hin. destruct a as [q st t|q st t| |q oc fl tr|q];
    unfold in_range in Hin; simpl in *.
  - case_decide; [by apply isr_is_Some|eauto].
  - by apply isr_is_Some.
  - rewrite lookForChanges_described by done. eauto.
  - rewrite attach_4_Some by done. eauto.
  - rewrite detach_Some by done. eauto.
Qed.

Lemma run_app acts1 acts2 m :
  run (acts1 ++ acts2) m = run acts1 m ≫= run acts2.
Proof.
  revert m. induction acts1 as [|a acts1 IH]; intros m; [done|].
  simpl. destruct (step a m) as [m'|]; simpl; [apply IH|done].
Qed.

Lemma run_wf acts m m' : wf m → run acts m = Some m' → wf m'.
Proof.
  revert m. induction acts as [|a acts IH]; intros m Hwf Hrun; simpl in Hrun.
  - by simplify_eq.
  - destruct (step a m) as [m1|] eqn:Hstep; [|done]. simpl in Hrun.
    eapply IH; [|done]. by eapply step_wf.
Qed.

Lemma run_is_Some acts m :
  wf m → Forall in_range acts → is_Some (run acts m).
Proof.
  intros Hwf Hall. revert m Hwf.
  induction Hall as [|a acts Ha Hall IH]; intros m Hwf; simpl; [eauto|].
  destruct (step_is_Some a m) as [m1 Hm1]; [done|done|].
  rewrite Hm1. simpl. apply IH. by eapply step_wf.
Qed.

End Histories.

(** ** Each channel on its own *)

Section ChannelView.
Context `{Platform} {World : Type}.
Implicit Types (r : @PWMReceiver World) (m : @Machine World) (w : World)
  (a : @Action World) (acts : list (@Action World)).

Lemma isr_channel (q p : nat) (pinState micros : Z) m m' :
  wf m → isr q pinState micros m = Some m' →
  channel p m'
  = (if bool_decide (q = p) then channel_capture p pinState micros (channel p m)
     else channel p m)
  ∧ calls m' = calls m.
Proof.
  intros [Hr Hs] (s' & Hs' & ->)%isr_inv. split; [|done].
  pose proof (handleChange_in_range _ _ _ _ _ Hs Hs') as Hq.
  case_bool_decide as Hqp.
  - subst q. unfold channel, channel_capture. simpl.
    destruct (Z.ltb_spec 0 pinState) as [Hst|Hst].
    + rewrite handleChange_rising in Hs' by done. simplify_eq. simpl.
      destruct Hs as (Hws & _ & _).
      rewrite list_lookup_insert_eq by lia. done.
    + destruct (handleChange_falling p pinState micros (statics m))
        as (start & Hstart & Heq); [done..|].
      rewrite Heq in Hs'. simplify_eq. simpl.
      destruct Hs as (Hws & Hcv & Hfl).
      rewrite list_lookup_insert_eq by lia. rewrite Hstart. simpl.
      rewrite flag_test_set by done.
      rewrite (bool_decide_eq_true_2 (p = p)) by done. done.
  - destruct (handleChange_frame q p pinState micros (statics m) s')
      as (Hws & Hcv & Hfl); [done..|].
    unfold channel. simpl. by rewrite Hws, Hcv, Hfl.
Qed.

Lemma attach_channel (q p : nat) (oc : @OnChangeFunc World) (fl : FilterFunc)
    (tr : TransformFunc) m m' :
  wf m → attach_4 q oc fl tr m = Some m' →
  channel p m' = channel_next (Attach q oc fl tr) p (channel p m)
  ∧ calls m' = calls m.
Proof.
  intros Hwf Hm.
  assert (q < PINS_COUNT) as Hq.
  { destruct Hwf as ((Hoc & _) & _). unfold attach_4 in Hm.
    destruct (arr_set (_onChangeFunctions (receiver m)) q oc) eqn:Ha;
      [|done]. apply arr_set_inv in Ha as [? _]. lia. }
  rewrite attach_4_Some in Hm by done. simplify_eq. split; [|done].
  destruct Hwf as [Hr Hs]. unfold channel. simpl.
  rewrite pipeline_insert by done. unfold enableInterrupt.
  case_bool_decide as Hqp.
  - subst q. f_equal. apply bool_decide_eq_true_2.
    apply elem_of_union_l. by apply elem_of_singleton.
  - f_equal. apply bool_decide_ext.
    rewrite elem_of_union, elem_of_singleton.
    split; [intros [Heq|Hin]; [congruence|done] | by right].
Qed.

Lemma detach_channel (q p : nat) m m' :
  wf m → detach q m = Some m' →
  channel p m' = channel_next (Detach q) p (channel p m)
  ∧ calls m' = calls m.
Proof.
  intros Hwf Hm.
  assert (q < PINS_COUNT) as Hq.
  { destruct Hwf as ((Hoc & _) & _). unfold detach in Hm.
    destruct (arr_set (_onChangeFunctions (receiver m)) q _void) eqn:Ha;
      [|done]. apply arr_set_inv in Ha as [? _]. lia. }
  rewrite detach_Some in Hm by done. simplify_eq. split; [|done].
  destruct Hwf as [Hr Hs]. unfold channel. simpl.
  rewrite pipeline_insert by done. unfold disableInterrupt.
  case_bool_decide as Hqp.
  - subst q. f_equal. apply bool_decide_eq_false_2.
    rewrite elem_of_difference, elem_of_singleton. by intros [_ []].
  - f_equal. apply bool_decide_ext.
    rewrite elem_of_difference, elem_of_singleton.
    split; [by intros [Hin _] | intros Hin; split; [done|congruence]].
Qed.

Lemma lookForChanges_channel (p : nat) m m' :
  wf m → lookForChanges m = Some m' →
  channel p m' = channel_next Poll p (channel p m)
  ∧ calls_on p (calls m')
    = calls_on p (calls m) ++ channel_calls Poll p (channel p m).
Proof.
  intros Hwf. rewrite lookForChanges_described by done. intros [= <-].
  destruct Hwf as (Hr & Hws & Hcv & Hfl).
  split.
  - unfold channel. simpl. by rewrite flag_test_0.
  - simpl. rewrite calls_on_app, calls_on_cycle by done. done.
Qed.

(** A step changes the view of a channel as [channel_next] says, and adds
    the calls of [channel_calls] to its part of the log: both depend on
    the view of that channel only. *)
Lemma step_channel a (p : nat) m m' :
  wf m → step a m = Some m' →
  channel p m' = channel_next a p (channel p m)
  ∧ calls_on p (calls m')
    = calls_on p (calls m) ++ channel_calls a p (channel p m).
Proof.
  intros Hwf Hstep. destruct a as [q st t|q st t| |q oc fl tr|q];
    simpl in Hstep.
  - simpl channel_calls. rewrite app_nil_r. simpl channel_next.
    case_decide as Hen.
    + destruct (isr_channel q p st t m m') as [-> ->]; [done..|].
      split; [|done]. case_bool_decide; [|done]. subst q.
      simpl. by rewrite bool_decide_eq_true_2.
    + simplify_eq. split; [|done]. case_bool_decide; [|done]. subst q.
      simpl. by rewrite bool_decide_eq_false_2.
  - simpl channel_calls. rewrite app_nil_r.
    destruct (isr_channel q p st t m m') as [-> ->]; done.
  - by apply lookForChanges_channel.
  - simpl channel_calls. rewrite app_nil_r.
    destruct (attach_channel q p oc fl tr m m') as [-> ->]; done.
  - simpl channel_calls. rewrite app_nil_r.
    destruct (detach_channel q p m m') as [-> ->]; done.
Qed.

(** Two states that agree on a channel still agree on it after the same
    action, and the action adds the same calls to the channel's part of
    both logs. *)
Lemma step_agree a (p : nat) m1 m2 m1' m2' :
  wf m1 → wf m2 → channel p m1 = channel p m2 →
  step a m1 = Some m1' → step a m2 = Some m2' →
  channel p m1' = channel p m2'
  ∧ ∃ new, calls_on p (calls m1') = calls_on p (calls m1) ++ new
         ∧ calls_on p (calls m2') = calls_on p (calls m2) ++ new.
Proof.
  intros Hwf1 Hwf2 Hch H1 H2.
  destruct (step_channel a p m1 m1') as [E1 C1]; [done..|].
  destruct (step_channel a p m2 m2') as [E2 C2]; [done..|].
  split; [by rewrite E1, E2, Hch|].
  exists (channel_calls a p (channel p m2)). by rewrite C1, C2, Hch.
Qed.

(** A transition of another pin changes nothing for the channel. *)
Lemma step_capture_other a (p q : nat) m m' :
  wf m → is_capture a = true → action_pin a = Some q → q ≠ p →
  step a m = Some m' →
  channel p m' = channel p m ∧ calls m' = calls m.
Proof.
  intros Hwf Hcap Hpin Hqp Hstep.
  destruct a as [q' st t|q' st t| | |]; try done; simpl in *; simplify_eq.
  - case_decide; [|by simplify_eq].
    destruct (isr_channel q p st t m m') as [-> ->]; [done..|].
    by rewrite bool_decide_eq_false_2.
  - destruct (isr_channel q p st t m m') as [-> ->]; [done..|].
    by rewrite bool_decide_eq_false_2.
Qed.

End ChannelView.

(** * The claims *)

Section CaptureClaims.
Context `{Platform}.

(** C10. Edge capture cannot fail, and the duration it stores is the
    difference of the two clock values modulo [2 ^ ulong_bits]: for every
    rising-edge time [t_s] and falling-edge time [t_f], also when
    [t_f < t_s] after the clock has wrapped around, both runs of the
    handler return and the value slot then holds [(t_f - t_s) mod 2 ^ w],
    an [unsigned long]; nothing corrects it or reports it. *)
Theorem duration_wraps (pin : nat) (high low t_s t_f : Z) (s : Statics) :
  wf_statics s → pin < PINS_COUNT → (0 < high)%Z → (low ≤ 0)%Z →
  ∃ s1 s2,
    _handleChange pin high t_s s = Some s1
    ∧ _handleChange pin low t_f s1 = Some s2
    ∧ _currentValues s2 !! pin = Some ((t_f - t_s) mod 2 ^ ulong_bits)%Z
    ∧ (0 ≤ (t_f - t_s) mod 2 ^ ulong_bits < 2 ^ ulong_bits)%Z.
Proof.
  intros Hwf Hpin Hhi Hlo.
  pose proof (handleChange_rising pin high t_s s Hwf Hpin Hhi) as H1.
  eexists. 
  assert (wf_statics {| _waveStarts := <[pin:=t_s]> (_waveStarts s);
                        _currentValues := _currentValues s;
                        _changedFlags := _changedFlags s |}) as Hwf1
    by (by eapply handleChange_wf).
  destruct (handleChange_falling pin low t_f _ Hwf1 Hpin Hlo)
    as (start & Hstart & H2).
  simpl in Hstart. destruct Hwf as (Hws & Hcv & Hfl).
  rewrite list_lookup_insert_eq in Hstart by lia. simplify_eq.
  eexists. split; [exact H1|]. split; [exact H2|]. simpl. split.
  - rewrite list_lookup_insert_eq by lia. done.
  - apply Z.mod_pos_bound. pose proof ulong_bits_min.
    apply Z.pow_pos_nonneg; lia.
Qed.

(** The handler on a channel below 15: a rising edge stores the clock
    value in the wave start of the channel and changes nothing else; a
    falling edge stores the wrapped difference in the value slot, sets
    the flag of the channel, and leaves the wave starts alone. *)
Lemma edge_capture_below_15 (pin : nat) (high low now start : Z) (s : Statics) :
  wf_statics s → pin < 15 → (0 < high)%Z → (low ≤ 0)%Z →
  _waveStarts s !! pin = Some start →
  _handleChange pin high now s
  = Some {| _waveStarts := <[pin:=now]> (_waveStarts s);
            _currentValues := _currentValues s;
            _changedFlags := _changedFlags s |}
  ∧ ∃ s', _handleChange pin low now s = Some s'
      ∧ _waveStarts s' = _waveStarts s
      ∧ _currentValues s'
        = <[pin:=((now - start) mod 2 ^ ulong_bits)%Z]> (_currentValues s)
      ∧ flag_test (_changedFlags s') pin = true
      ∧ ∀ q, q ≠ pin →
          flag_test (_changedFlags s') q = flag_test (_changedFlags s) q.
Proof.
  intros Hwf Hpin Hhi Hlo Hstart.
  assert (pin < PINS_COUNT) as Hpin' by (unfold PINS_COUNT; lia).
  split; [by apply handleChange_rising|].
  destruct (handleChange_falling pin low now s Hwf Hpin' Hlo)
    as (start' & Hstart' & Heq).
  simplify_eq. eexists. split; [exact Heq|]. simpl.
  destruct Hwf as (Hws & Hcv & Hfl).
  split; [done|]. split; [done|]. split.
  - rewrite flag_test_set by done.
    rewrite !bool_decide_eq_true_2 by done. apply orb_true_r.
  - intros q Hq. rewrite flag_test_set by done.
    rewrite (bool_decide_eq_false_2 (q = pin)) by done. apply orb_false_r.
Qed.

(** C5, at channel 15. A falling edge on channel 15 stores the duration
    but sets no dirty bit: the flag register is unchanged and the test
    the dispatcher makes for channel 15 fails. *)
Theorem falling_edge_channel_15 (low now : Z) (s : Statics) :
  wf_statics s → (low ≤ 0)%Z →
  ∃ start s',
    _waveStarts s !! 15 = Some start
    ∧ _handleChange 15 low now s = Some s'
    ∧ _currentValues s' !! 15 = Some ((now - start) mod 2 ^ ulong_bits)%Z
    ∧ _changedFlags s' = _changedFlags s
    ∧ flag_test (_changedFlags s') 15 = false.
Proof.
  intros Hwf Hlo.
  destruct (handleChange_falling 15 low now s Hwf) as (start & Hstart & Heq);
    [unfold PINS_COUNT; lia|done|].
  exists start. eexists. split; [done|]. split; [exact Heq|]. simpl.
  destruct Hwf as (Hws & Hcv & Hfl).
  split; [|split].
  - rewrite list_lookup_insert_eq; [done|]. rewrite Hcv. unfold PINS_COUNT. lia.
  - by apply flag_set_15.
  - apply flag_test_15, flag_set_range.
Qed.

End CaptureClaims.

Section DispatchClaims.
Context `{Platform} {World : Type}.
Implicit Types (r : @PWMReceiver World) (m : @Machine World) (w : World)
  (a : @Action World) (acts : list (@Action World)).

Lemma seq_sorted (start len : nat) : StronglySorted lt (seq start len).
Proof.
  revert start. induction len as [|n IH]; intros start; simpl.
  - constructor.
  - constructor; [apply IH|].
    apply Forall_forall. intros x Hx%elem_of_seq. lia.
Qed.

Lemma filter_sorted (P : nat → Prop) `{!∀ x, Decision (P x)} (l : list nat) :
  StronglySorted lt l → StronglySorted lt (filter P l).
Proof.
  induction 1 as [|x l Hl IH Hx]; [constructor|].
  destruct (decide (P x)).
  - rewrite filter_cons_True by done. constructor; [done|].
    apply Forall_forall. intros y [_ Hy]%list_elem_of_filter.
    rewrite Forall_forall in Hx. by apply Hx.
  - by rewrite filter_cons_False.
Qed.

(** C9. One [lookForChanges()] cycle returns; its calls are the blocks of
    the dirty channels in increasing channel order; the block of a
    channel is the call of its filter on the snapshot value, followed,
    only if the filter returned true, by the call of the transform on
    that value and then the call of the callback on the transformed
    value; the user state is changed by the accepted callbacks in the
    same order; and the calls of any one channel in the cycle are at most
    one such block, whatever number of pulses completed before. *)
Theorem dispatch_order m :
  wf m →
  let r := receiver m in
  let flags := _changedFlags (statics m) in
  let values := _currentValues (statics m) in
  let dirty := filter (λ pin, flag_test flags pin = true) (seq 0 PINS_COUNT) in
  ∃ m', lookForChanges m = Some m'
    ∧ StronglySorted lt dirty
    ∧ calls m' = calls m ++ concat (map (described_calls r values) dirty)
    ∧ world m' = foldl (described_effect r values) (world m) dirty
    ∧ (∀ pin, pin < PINS_COUNT →
        ∃ onChangeFunc filterFunc transformFunc value,
          pipeline r pin = Some (onChangeFunc, filterFunc, transformFunc)
          ∧ values !! pin = Some value
          ∧ described_calls r values pin
            = (if filterFunc value
               then [CallFilter pin value; CallTransform pin value;
                     CallOnChange pin (transformFunc value)]
               else [CallFilter pin value])
          ∧ ∀ w, described_effect r values w pin
                 = if filterFunc value
                   then onChangeFunc (transformFunc value) w else w)
    ∧ (∀ pin, calls_on pin (concat (map (described_calls r values) dirty))
              = if flag_test flags pin then described_calls r values pin
                else []).
Proof.
  intros Hwf r flags values dirty.
  eexists. split; [by apply lookForChanges_described|]. simpl.
  destruct Hwf as (Hr & Hws & Hcv & Hfl).
  split; [apply filter_sorted, seq_sorted|].
  split; [done|]. split; [done|]. split.
  - intros pin Hpin.
    destruct (pipeline_is_Some r pin Hr Hpin) as [[[oc fl] tr] Hp].
    destruct (lookup_lt_is_Some_2 values pin) as [v Hv];
      [unfold values; lia|].
    exists oc, fl, tr, v. split; [done|]. split; [done|].
    unfold described_calls, described_effect. rewrite Hp, Hv. done.
  - intros pin. by apply calls_on_cycle.
Qed.

(** Nothing is ever called on channel 15. *)
Lemma run_channel_15 acts m m' :
  wf m → run acts m = Some m' →
  calls_on 15 (calls m') = calls_on 15 (calls m).
Proof.
  revert m. induction acts as [|a acts IH]; intros m Hwf Hrun; simpl in Hrun.
  - by simplify_eq.
  - destruct (step a m) as [m1|] eqn:Hstep; [|done]. simpl in Hrun.
    rewrite (IH m1); [|by eapply step_wf|done].
    destruct (step_channel a 15 m m1 Hwf Hstep) as [_ ->].
    destruct a; simpl; try apply app_nil_r.
    destruct Hwf as (_ & _ & _ & Hfl).
    rewrite flag_test_15 by done. apply app_nil_r.
Qed.

(** C4. The flag of channel [c] is bit [c + 1] of the 16-bit register:
    the test [flags & 2 << c] reads that bit and [flags |= 2 << c] sets
    it if the register has it. For channel 15 the mask contributes
    nothing to the register and the test is zero, so after every history
    of edges, handler runs, polls, attaches and detaches channel 15 is
    not dirty and no function of its pipeline has been called. *)
Theorem channel_15_never_dirty m acts (flags : Z) :
  wf m → Forall in_range acts → (0 ≤ flags < 2 ^ 16)%Z →
  (∀ c : nat, flag_test flags c = Z.testbit flags (Z.of_nat c + 1))
  ∧ (∀ (c : nat) (i : Z), (0 ≤ i)%Z →
       Z.testbit (flag_set flags c) i
       = Z.testbit flags i || ((i =? Z.of_nat c + 1)%Z && (i <? 16)%Z))
  ∧ uint16 (pin_mask 15) = 0%Z
  ∧ Z.land flags (pin_mask 15) = 0%Z
  ∧ flag_set flags 15 = flags
  ∧ flag_test flags 15 = false
  ∧ ∃ m', run acts m = Some m'
      ∧ flag_test (_changedFlags (statics m')) 15 = false
      ∧ calls_on 15 (calls m') = calls_on 15 (calls m).
Proof.
  intros Hwf Hacts Hfl.
  split; [intros c; by apply flag_test_testbit|].
  split; [intros c i Hi; by apply flag_set_testbit|].
  split.
  { pose proof (flag_set_15 0) as H0. unfold flag_set in H0.
    rewrite Z.lor_0_l in H0. apply H0. lia. }
  split.
  { pose proof (flag_test_15 flags Hfl) as Ht. unfold flag_test in Ht.
    apply negb_false_iff in Ht. by apply Z.eqb_eq. }
  split; [by apply flag_set_15|]. split; [by apply flag_test_15|].
  destruct (run_is_Some acts m Hwf Hacts) as [m' Hrun].
  exists m'. split; [done|]. split.
  - pose proof (run_wf acts m m' Hwf Hrun) as (_ & _ & _ & Hfl').
    by apply flag_test_15.
  - by eapply run_channel_15.
Qed.

(** C8. [attach(pin, onChange)] returns and installs, with the handler,
    a filter that returns true on every value and a transform that
    returns its argument; [attach(pin, onChange, filter)] returns and
    installs the handler, the given filter and a transform that returns
    its argument; they are [attach] with [any] and [identity]. And
    [attach] on a pin of the receiver returns, installs the given triplet
    for the pin and enables its interrupt, leaves the other channels
    alone, and gives the same state whatever was attached to the pin
    before. *)
Theorem attach_overloads (pin : nat) (onChangeFunc : @OnChangeFunc World)
    (filterFunc : FilterFunc) (transformFunc : TransformFunc) m :
  wf m → pin < PINS_COUNT →
  attach_2 pin onChangeFunc m = attach_4 pin onChangeFunc any identity m
  ∧ attach_3 pin onChangeFunc filterFunc m
    = attach_4 pin onChangeFunc filterFunc identity m
  ∧ (∃ m2 filter2 transform2,
       attach_2 pin onChangeFunc m = Some m2
       ∧ pipeline (receiver m2) pin = Some (onChangeFunc, filter2, transform2)
       ∧ (∀ value, filter2 value = true)
       ∧ (∀ value, transform2 value = value)
       ∧ pin ∈ enabled m2)
  ∧ (∃ m3 transform3,
       attach_3 pin onChangeFunc filterFunc m = Some m3
       ∧ pipeline (receiver m3) pin
         = Some (onChangeFunc, filterFunc, transform3)
       ∧ (∀ value, transform3 value = value)
       ∧ pin ∈ enabled m3)
  ∧ ∃ m', attach_4 pin onChangeFunc filterFunc transformFunc m = Some m'
      ∧ wf m'
      ∧ pipeline (receiver m') pin
        = Some (onChangeFunc, filterFunc, transformFunc)
      ∧ pin ∈ enabled m'
      ∧ (∀ q, q ≠ pin → channel q m' = channel q m)
      ∧ ∀ onChange0 filter0 transform0,
          ∃ m0, attach_4 pin onChange0 filter0 transform0 m = Some m0
            ∧ attach_4 pin onChangeFunc filterFunc transformFunc m0
              = Some m'.
Proof.
  intros Hwf Hpin. split; [done|]. split; [done|].
  split.
  { unfold attach_2, attach_3. rewrite attach_4_Some by done.
    eexists. exists any, identity. split; [done|].
    destruct Hwf as [Hr Hs]. cbn [receiver enabled].
    split. { rewrite pipeline_insert by done.
             by rewrite bool_decide_eq_true_2. }
    split; [by intros value|]. split; [by intros value|].
    unfold enableInterrupt. apply elem_of_union_l.
    by apply elem_of_singleton. }
  split.
  { unfold attach_3. rewrite attach_4_Some by done.
    eexists. exists identity. split; [done|].
    destruct Hwf as [Hr Hs]. cbn [receiver enabled].
    split. { rewrite pipeline_insert by done.
             by rewrite bool_decide_eq_true_2. }
    split; [by intros value|].
    unfold enableInterrupt. apply elem_of_union_l.
    by apply elem_of_singleton. }
  eexists. split; [by apply attach_4_Some|].
  assert (Hstep : step (Attach pin onChangeFunc filterFunc transformFunc) m
                  = attach_4 pin onChangeFunc filterFunc transformFunc m)
    by done.
  rewrite attach_4_Some in Hstep by done.
  split; [by eapply step_wf|].
  destruct Hwf as [Hr Hs]. cbn [receiver enabled].
  split. { rewrite pipeline_insert by done. by rewrite bool_decide_eq_true_2. }
  split. { unfold enableInterrupt. apply elem_of_union_l.
           by apply elem_of_singleton. }
  split.
  { intros q Hq.
    destruct (step_channel _ q _ _ (conj Hr Hs) Hstep) as [-> _].
    simpl. by rewrite bool_decide_eq_false_2. }
  intros oc0 fl0 tr0. eexists.
  split; [by apply attach_4_Some|].
  rewrite attach_4_Some; [|split; [by apply wf_receiver_insert|done]|done].
  cbn [receiver enabled statics world calls _onChangeFunctions
       _filterFunctions _transformFunctions].
  unfold enableInterrupt.
  rewrite !list_insert_insert_eq.
  by rewrite (assoc_L (∪)), (idemp_L (∪)).
Qed.

End DispatchClaims.

(** ** Pulses *)

Section Pulses.
Context `{Platform} {World : Type}.
Implicit Types (r : @PWMReceiver World) (m : @Machine World) (w : World)
  (a : @Action World) (acts : list (@Action World)).

Lemma ulong_small (z : Z) : (0 ≤ z < 2 ^ 32)%Z → ulong z = z.
Proof.
  intros Hz. unfold ulong. apply Z.mod_small.
  pose proof ulong_bits_min.
  assert (2 ^ 32 ≤ 2 ^ ulong_bits)%Z by (apply Z.pow_le_mono_r; lia). lia.
Qed.

Lemma filter_eq_seq (c start len : nat) :
  filter (λ p, p = c) (seq start len)
  = if bool_decide (start ≤ c < start + len) then [c] else [].
Proof.
  revert start. induction len as [|n IH]; intros start; simpl.
  - rewrite bool_decide_eq_false_2 by lia. done.
  - destruct (decide (start = c)) as [->|Hne].
    + rewrite filter_cons_True by done. rewrite IH.
      rewrite bool_decide_eq_false_2 by lia.
      rewrite bool_decide_eq_true_2 by lia. done.
    + rewrite filter_cons_False by done. rewrite IH.
      apply (f_equal (λ b : bool, if b then [c] else [])).
      apply bool_decide_ext. lia.
Qed.

(** With an empty register, a completed pulse on a channel below 15
    leaves exactly that channel dirty. *)
Lemma dirty_pins_single (c : nat) : c < 15 → dirty_pins (flag_set 0 c) = [c].
Proof.
  intros Hc. unfold dirty_pins.
  rewrite (list_filter_iff _ (λ p, p = c)).
  - rewrite filter_eq_seq. rewrite bool_decide_eq_true_2; [done|].
    unfold PINS_COUNT. lia.
  - intros p. rewrite flag_test_set by lia. rewrite flag_test_0. simpl.
    rewrite (bool_decide_eq_true_2 (c < 15)) by done.
    rewrite andb_true_r. by rewrite bool_decide_eq_true.
Qed.

Lemma step_Edge_enabled (c : nat) (pinState micros : Z) m :
  c ∈ enabled m → step (Edge c pinState micros) m = isr c pinState micros m.
Proof. intros Hen. simpl. by rewrite decide_True. Qed.

Lemma isr_rising (c : nat) (high t_s : Z) m :
  wf m → c < PINS_COUNT → (0 < high)%Z →
  isr c high t_s m
  = Some {| receiver := receiver m;
            statics :=
              {| _waveStarts := <[c:=t_s]> (_waveStarts (statics m));
                 _currentValues := _currentValues (statics m);
                 _changedFlags := _changedFlags (statics m) |};
            enabled := enabled m;
            world := world m;
            calls := calls m |}.
Proof.
  intros [Hr Hs] Hc Hhi. unfold isr.
  by rewrite handleChange_rising.
Qed.

Lemma isr_falling (c : nat) (low t_f start : Z) m :
  wf m → c < PINS_COUNT → (low ≤ 0)%Z →
  _waveStarts (statics m) !! c = Some start →
  isr c low t_f m
  = Some {| receiver := receiver m;
            statics :=
              {| _waveStarts := _waveStarts (statics m);
                 _currentValues :=
                   <[c:=ulong (t_f - start)]> (_currentValues (statics m));
                 _changedFlags := flag_set (_changedFlags (statics m)) c |};
            enabled := enabled m;
            world := world m;
            calls := calls m |}.
Proof.
  intros [Hr Hs] Hc Hlo Hstart. unfold isr.
  destruct (handleChange_falling c low t_f (statics m))
    as (start' & Hstart' & ->); [done..|].
  by simplify_eq.
Qed.

(** A rising and a falling edge on an enabled pin. *)
Lemma run_pulse (c : nat) (high low t_s t_f : Z) m :
  wf m → c < PINS_COUNT → c ∈ enabled m → (0 < high)%Z → (low ≤ 0)%Z →
  run [Edge c high t_s; Edge c low t_f] m
  = Some {| receiver := receiver m;
            statics :=
              {| _waveStarts := <[c:=t_s]> (_waveStarts (statics m));
                 _currentValues :=
                   <[c:=ulong (t_f - t_s)]> (_currentValues (statics m));
                 _changedFlags := flag_set (_changedFlags (statics m)) c |};
            enabled := enabled m;
            world := world m;
            calls := calls m |}.
Proof.
  intros Hwf Hc Hen Hhi Hlo.
  pose proof (isr_rising c high t_s m Hwf Hc Hhi) as H1.
  assert (step (Edge c high t_s) m = isr c high t_s m) as E1
    by (by apply step_Edge_enabled).
  assert (wf {| receiver := receiver m;
                statics :=
                  {| _waveStarts := <[c:=t_s]> (_waveStarts (statics m));
                     _currentValues := _currentValues (statics m);
                     _changedFlags := _changedFlags (statics m) |};
                enabled := enabled m; world := world m; calls := calls m |})
    as Hwf1 by (eapply (step_wf (Isr c high t_s)); [exact Hwf|exact H1]).
  cbn [run]. rewrite E1, H1. cbn [mbind option_bind].
  rewrite step_Edge_enabled by done.
  rewrite (isr_falling c low t_f t_s); [done|done|done|done|].
  destruct Hwf as (_ & Hws & _). cbn [statics _waveStarts].
  apply list_lookup_insert_eq. lia.
Qed.

(** A pulse on an attached channel below 15 while nothing is pending,
    followed by a poll: the pipeline of the channel runs once on the
    duration of the pulse, and nothing else happens. *)
Lemma pulse_poll (c : nat) (oc : @OnChangeFunc World) (fl : FilterFunc)
    (tr : TransformFunc) (high low t_s t_f : Z) m :
  wf m → c < 15 → c ∈ enabled m → _changedFlags (statics m) = 0%Z →
  pipeline (receiver m) c = Some (oc, fl, tr) →
  (0 < high)%Z → (low ≤ 0)%Z →
  ∃ m', run [Edge c high t_s; Edge c low t_f; Poll] m = Some m'
    ∧ wf m'
    ∧ receiver m' = receiver m
    ∧ enabled m' = enabled m
    ∧ _changedFlags (statics m') = 0%Z
    ∧ world m' = pipeline_effect oc fl tr (ulong (t_f - t_s)) (world m)
    ∧ calls m' = calls m ++ pipeline_calls c fl tr (ulong (t_f - t_s)).
Proof.
  intros Hwf Hc Hen Hfl0 Hp Hhi Hlo.
  assert (c < PINS_COUNT) as Hc' by (unfold PINS_COUNT; lia).
  change [Edge c high t_s; Edge c low t_f; Poll]
    with ([Edge c high t_s; Edge c low t_f] ++ [@Poll World]).
  rewrite run_app, run_pulse by done. simpl.
  set (m1 := {| receiver := receiver m; statics := _ |}).
  assert (wf m1) as Hwf1.
  { destruct Hwf as (Hr & Hws & Hcv & Hfl). split; [done|].
    split; [|split]; simpl; rewrite ?length_insert; try done.
    apply flag_set_range. }
  rewrite lookForChanges_described by done.
  eexists. split; [done|].
  split.
  { assert (step Poll m1 = lookForChanges m1) as Hstep by done.
    rewrite lookForChanges_described in Hstep by done.
    by eapply step_wf. }
  simpl. split; [done|]. split; [done|]. split; [done|].
  unfold described_cycle_effect, described_cycle_calls.
  rewrite Hfl0, dirty_pins_single by done. simpl.
  unfold described_effect, described_calls. rewrite Hp.
  destruct Hwf as (_ & _ & Hcv & _).
  rewrite list_lookup_insert_eq by lia.
  by rewrite app_nil_r.
Qed.

End Pulses.

Section EndToEnd.
Context `{Platform} {World : Type}.
Implicit Types (r : @PWMReceiver World) (m : @Machine World) (w : World).

Lemma init_statics_wf : wf_statics init_statics.
Proof. split; [reflexivity|]. split; [reflexivity|]. simpl. lia. Qed.

(** C3. After [attach(3, store, x > 1000, identity)] on a sketch that has
    just started: a pulse from 0 to 500 on channel 3 and a poll call the
    filter on 500 and nothing else, so no callback runs and the user
    state is untouched; a second pulse from 1000 to 3000 and a poll then
    call the filter and the transform on 2000 and [store] on 2000, once,
    and the user state is that of one run of [store] on 2000. *)
Theorem end_to_end r (e : gset nat) w (store : @OnChangeFunc World) :
  wf_receiver r →
  let m0 := {| receiver := r; statics := init_statics; enabled := e;
               world := w; calls := [] |} in
  ∃ m1 m2,
    run [Attach 3 store (λ x, 1000 <? x)%Z identity;
         Edge 3 1 0; Edge 3 0 500; Poll] m0 = Some m1
    ∧ calls m1 = [CallFilter 3 500]
    ∧ world m1 = w
    ∧ run [Edge 3 1 1000; Edge 3 0 3000; Poll] m1 = Some m2
    ∧ calls m2 = calls m1 ++ [CallFilter 3 2000; CallTransform 3 2000;
                              CallOnChange 3 2000]
    ∧ world m2 = store 2000%Z w.
Proof.
  intros Hr m0.
  assert (wf m0) as Hwf0 by (split; [done|apply init_statics_wf]).
  assert (3 < PINS_COUNT) as H3 by (unfold PINS_COUNT; lia).
  pose proof (attach_4_Some 3 store (λ x, 1000 <? x)%Z identity m0 Hwf0 H3)
    as Hatt.
  set (ma := {| receiver := _; statics := statics m0 |}) in Hatt.
  assert (wf ma) as Hwfa.
  { eapply (step_wf (Attach 3 store (λ x, 1000 <? x)%Z identity)); done. }
  assert (pipeline (receiver ma) 3
          = Some (store, (λ x, 1000 <? x)%Z, identity)) as Hpa.
  { unfold ma. cbn [receiver]. rewrite pipeline_insert by done.
    by rewrite bool_decide_eq_true_2. }
  assert (3 ∈ enabled ma) as Hena.
  { unfold ma, enableInterrupt. cbn [enabled]. apply elem_of_union_l.
    by apply elem_of_singleton. }
  assert (_changedFlags (statics ma) = 0%Z) as Hfa by done.
  assert (world ma = w ∧ calls ma = []) as [Hwa Hca] by done.
  destruct (pulse_poll 3 store (λ x, 1000 <? x)%Z identity 1 0 0 500 ma)
    as (m1 & Hrun1 & Hwf1 & Hr1 & He1 & Hf1 & Hw1 & Hc1); [done|lia|done..|lia|lia|].
  destruct (pulse_poll 3 store (λ x, 1000 <? x)%Z identity 1 0 1000 3000 m1)
    as (m2 & Hrun2 & Hwf2 & Hr2 & He2 & Hf2 & Hw2 & Hc2);
    [done|lia|by rewrite He1|done|by rewrite Hr1|lia|lia|].
  rewrite !ulong_small in * by lia.
  exists m1, m2. split.
  { change (run (_ :: ?l) m0) with (step (Attach 3 store (λ x, 1000 <? x)%Z identity) m0 ≫= run l).
    simpl step. rewrite Hatt. exact Hrun1. }
  split. { rewrite Hc1, Hca. done. }
  split. { rewrite Hw1, Hwa. done. }
  split; [done|].
  split. { rewrite Hc2. done. }
  rewrite Hw2, Hw1, Hwa. done.
Qed.

End EndToEnd.

Section Isolation.
Context `{Platform} {World : Type}.
Implicit Types (r : @PWMReceiver World) (m : @Machine World) (w : World)
  (a : @Action World) (acts : list (@Action World)).

(** Two states that agree on a channel agree on it after the same
    history, which adds the same calls to the channel's part of both
    logs. *)
Lemma run_agree acts (p : nat) m1 m2 m1' m2' :
  wf m1 → wf m2 → channel p m1 = channel p m2 →
  run acts m1 = Some m1' → run acts m2 = Some m2' →
  channel p m1' = channel p m2'
  ∧ ∃ new, calls_on p (calls m1') = calls_on p (calls m1) ++ new
         ∧ calls_on p (calls m2') = calls_on p (calls m2) ++ new.
Proof.
  revert m1 m2. induction acts as [|a acts IH];
    intros m1 m2 Hwf1 Hwf2 Hch Hrun1 Hrun2; simpl in *.
  - injection Hrun1 as <-. injection Hrun2 as <-.
    split; [done|]. exists []. by rewrite !app_nil_r.
  - destruct (step a m1) as [n1|] eqn:Hs1; [|done].
    destruct (step a m2) as [n2|] eqn:Hs2; [|done]. simpl in *.
    destruct (step_agree a p m1 m2 n1 n2) as (Hch' & new1 & C1 & C2);
      [done..|].
    destruct (IH n1 n2) as (Hch'' & new2 & D1 & D2);
      [exact (step_wf a m1 n1 Hwf1 Hs1)|exact (step_wf a m2 n2 Hwf2 Hs2)|
       done..|].
    split; [done|]. exists (new1 ++ new2).
    by rewrite D1, D2, C1, C2, !app_assoc.
Qed.

(** C6. For distinct channels A and B of the receiver, a transition on A
    (whether the hardware delivers it or the handler is run for it)
    returns and leaves the wave start, the value slot, the dirty bit, the
    installed triplet and the interrupt enable of B as they were, and the
    call log and the user state untouched; and whatever the program and
    the pins do afterwards, every [lookForChanges()] makes the same calls
    through the pipeline of B as it would have made without that
    transition. *)
Theorem channel_isolation (A B : nat) a m acts :
  wf m → A < PINS_COUNT → B < PINS_COUNT → A ≠ B →
  is_capture a = true → action_pin a = Some A → Forall in_range acts →
  ∃ m1, step a m = Some m1
    ∧ _waveStarts (statics m1) !! B = _waveStarts (statics m) !! B
    ∧ _currentValues (statics m1) !! B = _currentValues (statics m) !! B
    ∧ flag_test (_changedFlags (statics m1)) B
      = flag_test (_changedFlags (statics m)) B
    ∧ pipeline (receiver m1) B = pipeline (receiver m) B
    ∧ (B ∈ enabled m1 ↔ B ∈ enabled m)
    ∧ calls m1 = calls m
    ∧ world m1 = world m
    ∧ ∃ m' m1', run acts m = Some m' ∧ run acts m1 = Some m1'
        ∧ channel B m1' = channel B m'
        ∧ calls_on B (calls m1') = calls_on B (calls m').
Proof.
  intros Hwf HA HB HAB Hcap Hpin Hacts.
  destruct (step_is_Some a m) as [m1 Hstep]; [done| |].
  { unfold in_range. by rewrite Hpin. }
  pose proof (step_wf a m m1 Hwf Hstep) as Hwf1.
  destruct (step_capture_other a B A m m1) as [Hch Hcalls]; [done..|].
  exists m1. split; [done|].
  pose proof (f_equal ch_waveStart Hch) as Hws.
  pose proof (f_equal ch_value Hch) as Hcv.
  pose proof (f_equal ch_dirty Hch) as Hd.
  pose proof (f_equal ch_pipeline Hch) as Hp.
  pose proof (f_equal ch_enabled Hch) as He.
  simpl in Hws, Hcv, Hd, Hp, He.
  do 4 (split; [done|]).
  split.
  { split; intros Hin.
    - apply (bool_decide_eq_true_2 (B ∈ enabled m1)) in Hin.
      apply (bool_decide_eq_true_1 (B ∈ enabled m)). congruence.
    - apply (bool_decide_eq_true_2 (B ∈ enabled m)) in Hin.
      apply (bool_decide_eq_true_1 (B ∈ enabled m1)). congruence. }
  split; [done|].
  split.
  { destruct a as [q st t|q st t| | |]; try done; simpl in Hstep.
    - case_decide; [|by simplify_eq].
      by apply isr_inv in Hstep as (s' & _ & ->).
    - by apply isr_inv in Hstep as (s' & _ & ->). }
  destruct (run_is_Some acts m Hwf Hacts) as [m' Hrun].
  destruct (run_is_Some acts m1 Hwf1 Hacts) as [m1' Hrun1].
  exists m', m1'. split; [done|]. split; [done|].
  destruct (run_agree acts B m1 m m1' m') as (Hch' & new & C1 & C2);
    [done..|].
  split; [done|]. by rewrite C1, C2, Hcalls.
Qed.

End Isolation.

Section Detach.
Context `{Platform} {World : Type}.
Implicit Types (r : @PWMReceiver World) (m : @Machine World) (w : World)
  (a : @Action World) (acts : list (@Action World)).

(** While nothing is attached to it again, a detached channel keeps the
    default triplet, and no callback is called for it. *)
Lemma default_pipeline_persists acts (c : nat) m m' :
  wf m → pipeline (receiver m) c = Some (_void, none, identity) →
  Forall (λ a, attaches c a = false) acts →
  run acts m = Some m' →
  pipeline (receiver m') c = Some (_void, none, identity)
  ∧ filter is_onChange (calls_on c (calls m'))
    = filter is_onChange (calls_on c (calls m)).
Proof.
  intros Hwf Hp Hacts. revert m Hwf Hp.
  induction Hacts as [|a acts Ha Hacts IH]; intros m Hwf Hp Hrun;
    simpl in Hrun.
  - by injection Hrun as <-.
  - destruct (step a m) as [m1|] eqn:Hstep; [|done]. simpl in Hrun.
    destruct (step_channel a c m m1 Hwf Hstep) as [Hch Hcalls].
    assert (pipeline (receiver m1) c = Some (_void, none, identity)) as Hp1.
    { apply (f_equal ch_pipeline) in Hch. simpl in Hch. rewrite Hch.
      assert (∀ st t, ch_pipeline (channel_capture c st t (channel c m))
                      = Some (_void, none, identity)) as Hcap
        by (intros st t; unfold channel_capture; by destruct (0 <? st)%Z).
      destruct a as [q st t|q st t| |q oc fl tr|q]; cbn [channel_next].
      - destruct (bool_decide (q = c) && _); [apply Hcap|exact Hp].
      - destruct (bool_decide (q = c)); [apply Hcap|exact Hp].
      - exact Hp.
      - simpl in Ha. rewrite Ha. exact Hp.
      - by destruct (bool_decide (q = c)). }
    destruct (IH m1) as [Hp' Hc']; [by eapply step_wf|done|done|].
    split; [done|]. rewrite Hc', Hcalls, filter_app.
    replace (filter is_onChange (channel_calls a c (channel c m))) with
      (@nil Call); [by rewrite app_nil_r|].
    destruct a; try done. simpl. rewrite Hp.
    destruct (flag_test _ c); [|done].
    by destruct (_currentValues (statics m) !! c).
Qed.

(** A cycle in which only a detached channel can be dirty calls no
    callback and leaves the user state alone. *)
Lemma quiet_cycle r (values : list Z) (c : nat) (l : list nat) w :
  pipeline r c = Some (_void, none, identity) →
  Forall (λ p, p = c) l →
  foldl (described_effect r values) w l = w
  ∧ filter is_onChange (concat (map (described_calls r values) l)) = [].
Proof.
  intros Hp Hl. revert w. induction Hl as [|p l -> Hl IH]; intros w; [done|].
  destruct (IH w) as [IHw IHc].
  simpl. rewrite filter_app, IHc.
  assert (described_effect r values w c = w) as ->.
  { unfold described_effect. rewrite Hp. by destruct (values !! c). }
  split; [done|].
  unfold described_calls. rewrite Hp. by destruct (values !! c).
Qed.

Lemma quiet_history acts (c : nat) m m' :
  wf m → pipeline (receiver m) c = Some (_void, none, identity) →
  (∀ q, q ≠ c → flag_test (_changedFlags (statics m)) q = false) →
  Forall (λ a, capture_or_poll c a = true) acts →
  run acts m = Some m' →
  world m' = world m
  ∧ filter is_onChange (calls m') = filter is_onChange (calls m).
Proof.
  intros Hwf Hp Hq Hacts. revert m Hwf Hp Hq.
  induction Hacts as [|a acts Ha Hacts IH]; intros m Hwf Hp Hq Hrun;
    simpl in Hrun.
  - by injection Hrun as <-.
  - destruct (step a m) as [m1|] eqn:Hstep; [|done]. simpl in Hrun.
    pose proof (step_wf a m m1 Hwf Hstep) as Hwf1.
    assert (pipeline (receiver m1) c = Some (_void, none, identity)
            ∧ (∀ q, q ≠ c → flag_test (_changedFlags (statics m1)) q = false)
            ∧ world m1 = world m
            ∧ filter is_onChange (calls m1) = filter is_onChange (calls m))
      as (Hp1 & Hq1 & Hw1 & Hc1).
    { destruct a as [p st t|p st t| | |]; try done; simpl in Ha, Hstep.
      - apply bool_decide_eq_true_1 in Ha. subst p.
        case_decide; [|by injection Hstep as <-].
        pose proof Hstep as (s' & Hs' & ->)%isr_inv.
        split; [done|]. split; [|done]. intros q Hqc. cbn [statics].
        destruct Hwf as [_ Hs].
        destruct (handleChange_frame c q st t _ _ Hs (not_eq_sym Hqc) Hs')
          as (_ & _ & ->). by apply Hq.
      - apply bool_decide_eq_true_1 in Ha. subst p.
        pose proof Hstep as (s' & Hs' & ->)%isr_inv.
        split; [done|]. split; [|done]. intros q Hqc. cbn [statics].
        destruct Hwf as [_ Hs].
        destruct (handleChange_frame c q st t _ _ Hs (not_eq_sym Hqc) Hs')
          as (_ & _ & ->). by apply Hq.
      - rewrite lookForChanges_described in Hstep by done.
        injection Hstep as <-. cbn [receiver statics world calls _changedFlags].
        split; [done|]. split; [intros; apply flag_test_0|].
        destruct (quiet_cycle (receiver m) (_currentValues (statics m)) c
          (dirty_pins (_changedFlags (statics m))) (world m) Hp) as [Ew Ec].
        { apply Forall_forall. intros p [Hd _]%elem_of_dirty_pins.
          destruct (decide (p = c)); [done|]. rewrite Hq in Hd; done. }
        split; [exact Ew|].
        rewrite filter_app. unfold described_cycle_calls. rewrite Ec.
        apply app_nil_r. }
    destruct (IH m1) as [Hw' Hc']; [done..|].
    split; congruence.
Qed.

(** C7. [detach(c)] on a channel of the receiver returns, disables the
    interrupt of the channel and installs the default triplet (no-op
    callback, reject-all filter, identity transform), leaving the other
    channels alone. Afterwards, as long as nothing is attached to the
    channel again, no history makes a call of a callback for the channel:
    the filter rejects whatever value a stale or late capture left. And
    if no other channel is pending, any series of transitions, handler
    runs and polls for the channel calls no callback at all and leaves
    the user state as it was. *)
Theorem detach_silences (c : nat) m :
  wf m → c < PINS_COUNT →
  ∃ m', detach c m = Some m'
    ∧ wf m'
    ∧ (c ∉ enabled m')
    ∧ pipeline (receiver m') c = Some (_void, none, identity)
    ∧ (∀ q, q ≠ c → channel q m' = channel q m)
    ∧ world m' = world m ∧ calls m' = calls m
    ∧ (∀ acts, Forall in_range acts →
         Forall (λ a, attaches c a = false) acts →
         ∃ m'', run acts m' = Some m''
           ∧ filter is_onChange (calls_on c (calls m''))
             = filter is_onChange (calls_on c (calls m)))
    ∧ ((∀ q, q ≠ c → flag_test (_changedFlags (statics m)) q = false) →
       ∀ acts, Forall in_range acts →
         Forall (λ a, capture_or_poll c a = true) acts →
         ∃ m'', run acts m' = Some m''
           ∧ world m'' = world m
           ∧ filter is_onChange (calls m'') = filter is_onChange (calls m)).
Proof.
  intros Hwf Hc.
  assert (step (Detach c) m = detach c m) as Hstep by done.
  rewrite detach_Some in Hstep by done.
  rewrite detach_Some by done. eexists. split; [done|].
  pose proof (step_wf _ _ _ Hwf Hstep) as Hwf'.
  set (m' := {| receiver := _; statics := statics m |}) in *.
  assert (pipeline (receiver m') c = Some (_void, none, identity)) as Hp.
  { unfold m'. cbn [receiver]. destruct Hwf as [Hr _].
    rewrite pipeline_insert by done. by rewrite bool_decide_eq_true_2. }
  split; [done|]. split.
  { unfold m', disableInterrupt. cbn [enabled].
    rewrite elem_of_difference, elem_of_singleton. by intros [_ []]. }
  split; [done|]. split.
  { intros q Hq. destruct (step_channel _ q _ _ Hwf Hstep) as [-> _].
    simpl. by rewrite bool_decide_eq_false_2. }
  split; [done|]. split; [done|]. split.
  - intros acts Hin Hatt.
    destruct (run_is_Some acts m' Hwf' Hin) as [m'' Hrun].
    exists m''. split; [done|].
    by destruct (default_pipeline_persists acts c m' m'' Hwf' Hp Hatt Hrun)
      as [_ ->].
  - intros Hq acts Hin Hcap.
    destruct (run_is_Some acts m' Hwf' Hin) as [m'' Hrun].
    exists m''. split; [done|].
    by destruct (quiet_history acts c m' m'' Hwf' Hp Hq Hcap Hrun)
      as [-> ->].
Qed.

End Detach.

Section LatestWins.
Context `{Platform} {World : Type}.
Implicit Types (r : @PWMReceiver World) (m : @Machine World) (w : World)
  (a : @Action World) (acts : list (@Action World)).

Lemma capture_calls a m m' :
  is_capture a = true → step a m = Some m' → calls m' = calls m.
Proof.
  intros Hcap Hstep. destruct a as [q st t|q st t| | |]; try done;
    simpl in Hstep.
  - case_decide; [|by injection Hstep as <-].
    by apply isr_inv in Hstep as (s' & _ & ->).
  - by apply isr_inv in Hstep as (s' & _ & ->).
Qed.

(** Over a series of transitions, the view of a channel changes by the
    transitions of its own pin only, and nothing is called. *)
Lemma run_captures acts (c : nat) m m' :
  wf m → Forall (λ a, is_capture a = true) acts → run acts m = Some m' →
  channel c m'
  = foldl (λ ch a, channel_next a c ch) (channel c m)
      (filter (λ a, action_pin a = Some c) acts)
  ∧ calls m' = calls m.
Proof.
  intros Hwf Hacts. revert m Hwf.
  induction Hacts as [|a acts Ha Hacts IH]; intros m Hwf Hrun; simpl in Hrun.
  - by injection Hrun as <-.
  - destruct (step a m) as [m1|] eqn:Hstep; [|done]. simpl in Hrun.
    destruct (IH m1) as [Hch Hcalls]; [by eapply step_wf|done|].
    rewrite Hch, Hcalls, (capture_calls a m m1) by done.
    split; [|done].
    destruct (step_channel a c m m1 Hwf Hstep) as [-> _].
    destruct (decide (action_pin a = Some c)) as [Hc|Hc].
    + by rewrite filter_cons_True.
    + rewrite filter_cons_False by done. f_equal.
      destruct a as [q st t|q st t| | |]; try done; simpl in *.
      * rewrite (bool_decide_eq_false_2 (q = c)) by congruence. done.
      * rewrite (bool_decide_eq_false_2 (q = c)) by congruence. done.
Qed.

(** Latest wins, on the channels below 15: after a poll, two pulses on an
    attached channel, among transitions of other pins, and the next poll,
    the pipeline of the channel has run once, on the duration of the
    second pulse. *)
Lemma latest_wins_below_15 (c : nat) (oc : @OnChangeFunc World)
    (fl : FilterFunc) (tr : TransformFunc) acts
    (h1 l2 h3 l4 t1 t2 t3 t4 : Z) m :
  wf m → c < 15 → c ∈ enabled m →
  pipeline (receiver m) c = Some (oc, fl, tr) →
  Forall (λ a, is_capture a = true) acts → Forall in_range acts →
  filter (λ a, action_pin a = Some c) acts
  = [Edge c h1 t1; Edge c l2 t2; Edge c h3 t3; Edge c l4 t4] →
  (0 < h1)%Z → (l2 ≤ 0)%Z → (0 < h3)%Z → (l4 ≤ 0)%Z →
  fl ((t4 - t3) mod 2 ^ ulong_bits)%Z = true →
  ∃ m1 m2 m3,
    lookForChanges m = Some m1 ∧ run acts m1 = Some m2
    ∧ lookForChanges m2 = Some m3
    ∧ calls_on c (calls m3)
      = calls_on c (calls m1)
        ++ [CallFilter c ((t4 - t3) mod 2 ^ ulong_bits)%Z;
            CallTransform c ((t4 - t3) mod 2 ^ ulong_bits)%Z;
            CallOnChange c (tr ((t4 - t3) mod 2 ^ ulong_bits)%Z)].
Proof.
  intros Hwf Hc Hen Hp Hcap Hin Hfilter Hh1 Hl2 Hh3 Hl4 Hfl.
  destruct (step_is_Some Poll m Hwf) as [m1 Hs1]; [done|].
  pose proof (step_wf _ _ _ Hwf Hs1) as Hwf1.
  destruct (run_is_Some acts m1 Hwf1 Hin) as [m2 Hrun].
  pose proof (run_wf _ _ _ Hwf1 Hrun) as Hwf2.
  destruct (step_is_Some Poll m2 Hwf2) as [m3 Hs3]; [done|].
  exists m1, m2, m3. do 3 (split; [done|]).
  destruct (step_channel Poll c m m1 Hwf Hs1) as [Hch1 _].
  destruct (run_captures acts c m1 m2 Hwf1 Hcap Hrun) as [Hch2 Hcalls2].
  destruct (step_channel Poll c m2 m3 Hwf2 Hs3) as [_ ->].
  rewrite Hcalls2. f_equal.
  rewrite Hch2, Hfilter, Hch1. simpl.
  rewrite !(bool_decide_eq_true_2 (c = c)) by done.
  rewrite Hp, (bool_decide_eq_true_2 (c ∈ enabled m)) by done. simpl.
  unfold channel_capture.
  replace (0 <? h1)%Z with true by (symmetry; apply Z.ltb_lt; lia).
  replace (0 <? l2)%Z with false by (symmetry; apply Z.ltb_ge; lia).
  replace (0 <? h3)%Z with true by (symmetry; apply Z.ltb_lt; lia).
  replace (0 <? l4)%Z with false by (symmetry; apply Z.ltb_ge; lia).
  simpl. rewrite (bool_decide_eq_true_2 (c < 15)) by done. simpl.
  unfold pipeline_calls, ulong. by rewrite Hfl.
Qed.

End LatestWins.

(** C2, at channel 15. On an AVR board and on a 32-bit board: after
    [attach(15, store)] (accept-all filter, identity transform) and a
    poll, two pulses complete on channel 15, of durations 500 and 2000;
    the next poll calls nothing, and nothing has been stored. *)
Theorem latest_wins_channel_15 :
  let history : list (@Action (list Z)) :=
    [Attach 15 store any identity; Poll;
     Edge 15 1 0; Edge 15 0 500; Edge 15 1 1000; Edge 15 0 3000; Poll] in
  (calls <$> @run avr _ history power_on) = Some []
  ∧ (world <$> @run avr _ history power_on) = Some []
  ∧ ((λ m, _currentValues (statics m) !! 15) <$> @run avr _ history power_on)
    = Some (Some 2000%Z)
  ∧ (calls <$> @run arm32 _ history power_on) = Some []
  ∧ (world <$> @run arm32 _ history power_on) = Some [].
Proof. vm_compute. done. Qed.

(** ** The snapshot *)

Section Snapshot.
Import Interleaving.
Context `{Platform}.
Implicit Types (s : System) (schedule : list Event).

Lemma exec_app schedule1 schedule2 s :
  exec (schedule1 ++ schedule2) s = exec schedule1 s ≫= exec schedule2.
Proof.
  revert s. induction schedule1 as [|e l IH]; intros s; [done|].
  simpl. destruct (sys_step e s) as [s'|]; simpl; [apply IH|done].
Qed.

(** Once the flags are cleared, the local copies do not change any
    more. *)
Lemma locals_settled schedule s s' :
  pc s = AtInterrupts ∨ pc s = AtLoop →
  exec schedule s = Some s' →
  flags s' = flags s ∧ values s' = values s.
Proof.
  revert s. induction schedule as [|e l IH]; intros s Hpc Hexec;
    simpl in Hexec.
  - by injection Hexec as <-.
  - destruct (sys_step e s) as [s1|] eqn:Hstep; [|done]. simpl in Hexec.
    assert ((pc s1 = AtInterrupts ∨ pc s1 = AtLoop)
            ∧ flags s1 = flags s ∧ values s1 = values s) as (Hpc1 & <- & <-).
    { destruct e as [|pin st t]; simpl in Hstep.
      - unfold main_step in Hstep.
        destruct Hpc as [Hpc|Hpc]; rewrite Hpc in Hstep;
          injection Hstep as <-; simpl; auto.
      - destruct (interruptsOn s); [|injection Hstep as <-; auto].
        destruct (_handleChange pin st t (shared s)); [|done].
        injection Hstep as <-. simpl. auto. }
    by apply IH.
Qed.

Lemma returned_stays schedule s s' :
  pc s = AtReturn → exec schedule s = Some s' → pc s' = AtReturn.
Proof.
  revert s. induction schedule as [|e l IH]; intros s Hpc Hexec;
    simpl in Hexec.
  - by injection Hexec as <-.
  - destruct (sys_step e s) as [s1|] eqn:Hstep; [|done]. simpl in Hexec.
    apply (IH s1); [|done].
    destruct e as [|pin st t]; simpl in Hstep.
    + unfold main_step in Hstep. rewrite Hpc in Hstep. by injection Hstep as <-.
    + destruct (interruptsOn s); [|by injection Hstep as <-].
      destruct (_handleChange pin st t (shared s)); [|done].
      by injection Hstep as <-.
Qed.

Lemma critical_section schedule (x : Statics) s s' :
  in_critical_section x s → exec schedule s = Some s' → pc s' = AtLoop →
  ∃ during after s_c,
    schedule = during ++ after
    ∧ exec during s = Some s_c ∧ exec after s_c = Some s'
    ∧ pc s_c = AtInterrupts ∧ shared s_c = cleared x
    ∧ flags s' = _changedFlags x ∧ values s' = _currentValues x.
Proof.
  revert s. induction schedule as [|e l IH]; intros s Hin Hexec Hend;
    simpl in Hexec.
  - injection Hexec as <-. destruct Hin as (_ & _ & _ & _ & Hpc).
    by rewrite Hend in Hpc.
  - destruct (sys_step e s) as [s1|] eqn:Hstep; [|done]. simpl in Hexec.
    destruct Hin as (Hie & Hsh & Hlen & Hlenx & Hpc).
    destruct e as [|pin st t].
    + simpl in Hstep. unfold main_step in Hstep.
      destruct (pc s) as [| | |i| | | |] eqn:Hpcs; try done.
      * (* the flags are copied *)
        injection Hstep as <-.
        assert (in_critical_section x
          {| shared := shared s; interruptsOn := interruptsOn s;
             pc := AtMemcpy 0; flags := _changedFlags (shared s);
             values := values s |}) as Hin1.
        { split; [done|]. split; [done|]. simpl.
          split; [done|]. split; [done|]. split; [by rewrite Hsh|].
          split; [lia|done]. }
        destruct (IH _ Hin1 Hexec Hend)
          as (during & after & s_c & -> & Hd & Ha & Hrest).
        exists (Main :: during), after, s_c. split; [done|].
        split; [|done]. simpl. unfold main_step. rewrite Hpcs. exact Hd.
      * (* one element is copied, or the copy is complete *)
        destruct Hpc as (Hfl & Hi & Htake).
        case_decide as Hlt.
        -- destruct (_currentValues (shared s) !! i) as [v|] eqn:Hv; [|done].
           simpl in Hstep. rewrite arr_set_Some in Hstep by lia.
           injection Hstep as <-.
           assert (in_critical_section x
             {| shared := shared s; interruptsOn := interruptsOn s;
                pc := AtMemcpy (S i); flags := flags s;
                values := <[i:=v]> (values s) |}) as Hin1.
           { split; [done|]. split; [done|]. simpl.
             rewrite length_insert. split; [done|]. split; [done|].
             split; [done|]. split; [lia|].
             rewrite Hsh in Hv.
             rewrite (take_S_r _ _ v) by (apply list_lookup_insert_eq; lia).
             rewrite (take_S_r _ _ v) by done.
             rewrite take_insert, decide_False by lia. by rewrite Htake. }
           destruct (IH _ Hin1 Hexec Hend)
             as (during & after & s_c & -> & Hd & Ha & Hrest).
           exists (Main :: during), after, s_c. split; [done|].
           split; [|done]. simpl. unfold main_step. rewrite Hpcs.
           rewrite decide_True by done. rewrite Hv. simpl.
           rewrite arr_set_Some by lia. exact Hd.
        -- injection Hstep as <-.
           assert (in_critical_section x (goto AtClearFlags s)) as Hin1.
           { split; [done|]. split; [done|]. simpl.
             split; [done|]. split; [done|]. split; [done|].
             rewrite <- (take_ge (values s) i), <- (take_ge (_currentValues x) i)
               by lia. done. }
           destruct (IH _ Hin1 Hexec Hend)
             as (during & after & s_c & -> & Hd & Ha & Hrest).
           exists (Main :: during), after, s_c. split; [done|].
           split; [|done]. simpl. unfold main_step. rewrite Hpcs.
           rewrite decide_False by done. exact Hd.
      * (* the flags are cleared *)
        destruct Hpc as (Hfl & Hv).
        injection Hstep as <-.
        exists [Main], l. eexists. split; [done|]. split.
        { simpl. unfold main_step. rewrite Hpcs. done. }
        split; [exact Hexec|]. simpl. split; [done|].
        split; [by rewrite <- Hsh|].
        apply locals_settled in Hexec as [-> ->]; [done|by left].
    + (* a transition while interrupts are disabled stays pending *)
      simpl in Hstep. rewrite Hie in Hstep. injection Hstep as <-.
      destruct (IH s (conj Hie (conj Hsh (conj Hlen (conj Hlenx Hpc))))
        Hexec Hend) as (during & after & s_c & -> & Hd & Ha & Hrest).
      exists (Irq pin st t :: during), after, s_c. split; [done|].
      split; [|done]. simpl. rewrite Hie. exact Hd.
Qed.

Lemma before_critical_section schedule s s' :
  pc s = AtCheck ∨ pc s = AtNoInterrupts →
  wf_statics (shared s) → length (values s) = PINS_COUNT →
  exec schedule s = Some s' → pc s' = AtLoop →
  ∃ before rest s_i,
    schedule = before ++ rest
    ∧ exec before s = Some s_i ∧ exec rest s_i = Some s'
    ∧ pc s_i = AtCopyFlags ∧ interruptsOn s_i = false
    ∧ wf_statics (shared s_i) ∧ length (values s_i) = PINS_COUNT.
Proof.
  revert s. induction schedule as [|e l IH]; intros s Hpc Hwf Hlen Hexec Hend;
    simpl in Hexec.
  - injection Hexec as <-. destruct Hpc as [Hpc|Hpc]; congruence.
  - destruct (sys_step e s) as [s1|] eqn:Hstep; [|done]. simpl in Hexec.
    destruct e as [|pin st t].
    + simpl in Hstep. unfold main_step in Hstep.
      destruct Hpc as [Hpc|Hpc]; rewrite Hpc in Hstep.
      * destruct (_changedFlags (shared s) =? 0)%Z eqn:Hz;
          injection Hstep as <-.
        { apply returned_stays in Hexec; [congruence|done]. }
        destruct (IH (goto AtNoInterrupts s)) as
          (before & rest & s_i & -> & Hb & Hr & Hrest); [by right|done..|].
        exists (Main :: before), rest, s_i. split; [done|].
        split; [|done]. simpl. unfold main_step. rewrite Hpc, Hz. exact Hb.
      * injection Hstep as <-.
        exists [Main], l. eexists. split; [done|]. split.
        { simpl. unfold main_step. rewrite Hpc. done. }
        split; [exact Hexec|]. done.
    + simpl in Hstep.
      destruct (interruptsOn s) eqn:Hie.
      * destruct (_handleChange pin st t (shared s)) as [sh|] eqn:Hh; [|done].
        injection Hstep as <-.
        destruct (IH {| shared := sh; interruptsOn := true;
                        pc := pc s; flags := flags s; values := values s |})
          as (before & rest & s_i & -> & Hb & Hr & Hrest);
          [done|by eapply handleChange_wf|done..|].
        exists (Irq pin st t :: before), rest, s_i. split; [done|].
        split; [|done]. simpl. rewrite Hie, Hh. exact Hb.
      * injection Hstep as <-.
        destruct (IH s) as (before & rest & s_i & -> & Hb & Hr & Hrest);
          [done..|].
        exists (Irq pin st t :: before), rest, s_i. split; [done|].
        split; [|done]. simpl. by rewrite Hie.
Qed.

End Snapshot.

Section SnapshotClaim.
Import Interleaving.
Context `{Platform}.
Implicit Types (s : System) (schedule : list Event).

(** C1. Take any interleaving of handler runs with one call of
    [lookForChanges()] that reaches the [for] loop. Then there is one
    instant of that run, the state [s_i] in which interrupts have just
    been disabled, such that the local [flags] and [values] are the flag
    register and the value array of that instant; and in the state [s_c]
    in which the register has just been reset, the statics are those of
    that instant with an empty register: between the two no handler ran,
    so every duration was copied together with its flag, and every flag
    that was cleared had been copied together with its value. *)
Theorem snapshot_consistent schedule s0 s :
  entry s0 → exec schedule s0 = Some s → pc s = AtLoop →
  ∃ before during after s_i s_c,
    schedule = before ++ during ++ after
    ∧ exec before s0 = Some s_i
    ∧ exec during s_i = Some s_c
    ∧ exec after s_c = Some s
    ∧ pc s_i = AtCopyFlags ∧ interruptsOn s_i = false
    ∧ pc s_c = AtInterrupts
    ∧ flags s = _changedFlags (shared s_i)
    ∧ values s = _currentValues (shared s_i)
    ∧ shared s_c = cleared (shared s_i).
Proof.
  intros (Hpc & Hie & Hwf & Hlen) Hexec Hend.
  destruct (before_critical_section schedule s0 s)
    as (before & rest & s_i & -> & Hb & Hr & Hpci & Hiei & Hwfi & Hleni);
    [by left|done..|].
  destruct (critical_section rest (shared s_i) s_i s)
    as (during & after & s_c & -> & Hd & Ha & Hpcc & Hshc & Hfl & Hv);
    [|done..|].
  { destruct Hwfi as (_ & Hcv & _).
    split; [done|]. split; [done|]. split; [done|]. split; [done|].
    by rewrite Hpci. }
  exists before, during, after, s_i, s_c. done.
Qed.

(** Without any transition during the call, a call that finds the
    register non-empty reaches its loop with the register and the values
    at entry as its local copies, and the register reset. *)
Lemma snapshot_uninterrupted s0 :
  entry s0 → _changedFlags (shared s0) ≠ 0%Z →
  exec (replicate 22 Main) s0
  = Some {| shared := cleared (shared s0); interruptsOn := true;
            pc := AtLoop; flags := _changedFlags (shared s0);
            values := _currentValues (shared s0) |}.
Proof.
  intros (Hpc & Hie & (Hws & Hcv & Hfl) & Hlen) Hnz.
  destruct s0 as [[ws cv fl] ie p f vs]. simpl in *. subst p ie.
  apply Z.eqb_neq in Hnz.
  unfold PINS_COUNT in *.
  repeat (destruct cv as [|? cv]; simpl in Hcv; try lia).
  repeat (destruct vs as [|? vs]; simpl in Hlen; try lia).
  cbn. unfold main_step at 1. cbn. rewrite Hnz. reflexivity.
Qed.

End SnapshotClaim.

(** * The claims on a sample program *)

Lemma power_on_wf : wf power_on.
Proof.
  split; [by repeat split|].
  split; [reflexivity|]. split; [reflexivity|]. simpl. lia.
Defined.

Lemma pending_wf : wf pending.
Proof.
  split; [by repeat split|].
  split; [reflexivity|]. split; [reflexivity|]. simpl. lia.
Defined.

(** On channel 14, attach, poll, two pulses of 500 and 2000 microseconds
    and a poll deliver the second duration, once. *)
Example latest_wins_channel_14 :
  let history : list (@Action (list Z)) :=
    [Attach 14 store any identity; Poll;
     Edge 14 1 0; Edge 14 0 500; Edge 14 1 1000; Edge 14 0 3000; Poll] in
  (calls <$> @run avr _ history power_on)
  = Some [CallFilter 14 2000; CallTransform 14 2000; CallOnChange 14 2000]
  ∧ (world <$> @run avr _ history power_on) = Some [2000%Z]
  ∧ (world <$> @run arm32 _ history power_on) = Some [2000%Z].
Proof. vm_compute. done. Qed.

(** The clock wraps between the two edges of a pulse on channel 3. *)
Lemma duration_wraps_witness :
  wf_statics init_statics ∧ 3 < PINS_COUNT ∧ (0 < 1)%Z ∧ (0 ≤ 0)%Z
  ∧ ∃ s1 s2,
      @_handleChange avr 3 1 4294967000 init_statics = Some s1
      ∧ @_handleChange avr 3 0 200 s1 = Some s2
      ∧ _currentValues s2 !! 3 = Some ((200 - 4294967000) mod 2 ^ 32)%Z
      ∧ (0 ≤ (200 - 4294967000) mod 2 ^ 32 < 2 ^ 32)%Z.
Proof.
  assert (3 < PINS_COUNT) as H3 by (unfold PINS_COUNT; lia).
  assert (0 < 1)%Z as Hhi by lia.
  assert (0 ≤ 0)%Z as Hlo by lia.
  split; [exact init_statics_wf|]. split; [exact H3|].
  split; [exact Hhi|]. split; [exact Hlo|].
  exact (@duration_wraps avr 3 1 0 4294967000 200 init_statics
           init_statics_wf H3 Hhi Hlo).
Defined.

Lemma falling_edge_channel_15_witness :
  wf_statics init_statics ∧ (0 ≤ 0)%Z
  ∧ ∃ start s',
      _waveStarts init_statics !! 15 = Some start
      ∧ @_handleChange avr 15 0 3000 init_statics = Some s'
      ∧ _currentValues s' !! 15 = Some ((3000 - start) mod 2 ^ 32)%Z
      ∧ _changedFlags s' = _changedFlags init_statics
      ∧ @flag_test avr (_changedFlags s') 15 = false.
Proof.
  assert (0 ≤ 0)%Z as Hlo by lia.
  split; [exact init_statics_wf|]. split; [exact Hlo|].
  exact (@falling_edge_channel_15 avr 0 3000 init_statics
           init_statics_wf Hlo).
Defined.

Lemma channel_15_never_dirty_witness :
  let acts : list (@Action (list Z)) :=
    [Attach 15 store any identity; Edge 15 1 0; Edge 15 0 500; Poll] in
  wf power_on ∧ Forall in_range acts ∧ (0 ≤ 65535 < 2 ^ 16)%Z
  ∧ @flag_set avr 65535 15 = 65535%Z
  ∧ @flag_test avr 65535 15 = false
  ∧ ∃ m', @run avr _ acts power_on = Some m'
      ∧ @flag_test avr (_changedFlags (statics m')) 15 = false
      ∧ calls_on 15 (calls m') = calls_on 15 (calls power_on).
Proof.
  intros acts.
  assert (Forall in_range acts) as Hacts
    by (repeat constructor; unfold in_range, PINS_COUNT; simpl; lia).
  assert (0 ≤ 65535 < 2 ^ 16)%Z as Hfl by lia.
  split; [exact power_on_wf|]. split; [exact Hacts|]. split; [exact Hfl|].
  destruct (@channel_15_never_dirty avr _ power_on acts 65535
              power_on_wf Hacts Hfl) as (_ & _ & _ & _ & Hs & Ht & Hrun).
  split; [exact Hs|]. split; [exact Ht|]. exact Hrun.
Defined.

Lemma attach_overloads_witness :
  wf power_on ∧ 3 < PINS_COUNT
  ∧ attach_2 3 store power_on = attach_4 3 store any identity power_on
  ∧ attach_3 3 store (λ x, 1000 <? x)%Z power_on
    = attach_4 3 store (λ x, 1000 <? x)%Z identity power_on
  ∧ (∃ m2 filter2 transform2,
       attach_2 3 store power_on = Some m2
       ∧ pipeline (receiver m2) 3 = Some (store, filter2, transform2)
       ∧ (∀ value, filter2 value = true)
       ∧ (∀ value, transform2 value = value)
       ∧ 3 ∈ enabled m2)
  ∧ (∃ m3 transform3,
       attach_3 3 store (λ x, 1000 <? x)%Z power_on = Some m3
       ∧ pipeline (receiver m3) 3
         = Some (store, (λ x, 1000 <? x)%Z, transform3)
       ∧ (∀ value, transform3 value = value)
       ∧ 3 ∈ enabled m3)
  ∧ ∃ m', attach_4 3 store (λ x, 1000 <? x)%Z (λ x, x / 2)%Z power_on
          = Some m'
      ∧ wf m'
      ∧ pipeline (receiver m') 3
        = Some (store, (λ x, 1000 <? x)%Z, (λ x, x / 2)%Z)
      ∧ 3 ∈ enabled m'
      ∧ (∀ q, q ≠ 3 → @channel avr _ q m' = @channel avr _ q power_on)
      ∧ ∀ onChange0 filter0 transform0,
          ∃ m0, attach_4 3 onChange0 filter0 transform0 power_on = Some m0
            ∧ attach_4 3 store (λ x, 1000 <? x)%Z (λ x, x / 2)%Z m0
              = Some m'.
Proof.
  assert (3 < PINS_COUNT) as H3 by (unfold PINS_COUNT; lia).
  split; [exact power_on_wf|]. split; [exact H3|].
  exact (@attach_overloads avr _ 3 store (λ x, 1000 <? x)%Z (λ x, x / 2)%Z
           power_on power_on_wf H3).
Defined.

Lemma busy_wf : wf busy.
Proof.
  split; [by repeat split|].
  split; [reflexivity|]. split; [reflexivity|]. simpl. lia.
Defined.

(** Three dirty channels, reached by four pulses that complete in the
    order 9, 2, 5, 2: the cycle serves 2, then 5, then 9; channel 2 once,
    on its second duration; the filter of channel 5 rejects, so neither
    its transform nor its callback is called; channel 9 delivers the
    transformed value. *)
Lemma dispatch_order_witness :
  @run avr _ busy_history three_channels = Some busy
  ∧ wf busy
  ∧ ∃ m', @lookForChanges avr _ busy = Some m'
      ∧ filter (λ pin, @flag_test avr (_changedFlags (statics busy)) pin = true)
          (seq 0 PINS_COUNT) = [2; 5; 9]
      ∧ calls m' = [CallFilter 2 1500; CallTransform 2 1500;
                    CallOnChange 2 1500;
                    CallFilter 5 300;
                    CallFilter 9 800; CallTransform 9 800;
                    CallOnChange 9 400]
      ∧ world m' = [1500%Z; 400%Z]
      ∧ calls_on 2 (calls m') = [CallFilter 2 1500; CallTransform 2 1500;
                                 CallOnChange 2 1500]
      ∧ calls_on 5 (calls m') = [CallFilter 5 300].
Proof.
  split; [vm_compute; reflexivity|]. split; [exact busy_wf|].
  destruct (@dispatch_order avr _ busy busy_wf)
    as (m' & Hm' & _ & Hcalls & Hworld & _ & Hon).
  exists m'. split; [exact Hm'|].
  split; [vm_compute; reflexivity|].
  split; [rewrite Hcalls; vm_compute; reflexivity|].
  split; [rewrite Hworld; vm_compute; reflexivity|].
  split.
  - rewrite Hcalls. cbn [calls busy app]. rewrite (Hon 2).
    vm_compute. reflexivity.
  - rewrite Hcalls. cbn [calls busy app]. rewrite (Hon 5).
    vm_compute. reflexivity.
Defined.

Lemma end_to_end_witness :
  wf_receiver detached_receiver
  ∧ ∃ m1 m2,
      @run avr _ [Attach 3 store (λ x, 1000 <? x)%Z identity;
                  Edge 3 1 0; Edge 3 0 500; Poll] power_on = Some m1
      ∧ calls m1 = [CallFilter 3 500]
      ∧ world m1 = []
      ∧ @run avr _ [Edge 3 1 1000; Edge 3 0 3000; Poll] m1 = Some m2
      ∧ calls m2 = calls m1 ++ [CallFilter 3 2000; CallTransform 3 2000;
                                CallOnChange 3 2000]
      ∧ world m2 = store 2000%Z [].
Proof.
  assert (wf_receiver detached_receiver) as Hr by (by repeat split).
  split; [exact Hr|].
  exact (@end_to_end avr _ detached_receiver ∅ [] store Hr).
Defined.

Lemma channel_isolation_witness :
  let a : @Action (list Z) := Isr 3 0 700 in
  wf pending ∧ 3 < PINS_COUNT ∧ 2 < PINS_COUNT ∧ 3 ≠ 2
  ∧ is_capture a = true ∧ action_pin a = Some 3 ∧ Forall in_range [@Poll (list Z)]
  ∧ ∃ m1, @step avr _ a pending = Some m1
      ∧ @flag_test avr (_changedFlags (statics m1)) 2 = true
      ∧ ∃ m' m1', @run avr _ [Poll] pending = Some m'
          ∧ @run avr _ [Poll] m1 = Some m1'
          ∧ calls_on 2 (calls m1') = calls_on 2 (calls m').
Proof.
  intros a.
  assert (3 < PINS_COUNT) as H3 by (unfold PINS_COUNT; lia).
  assert (2 < PINS_COUNT) as H2 by (unfold PINS_COUNT; lia).
  assert (3 ≠ 2) as Hne by lia.
  assert (is_capture a = true) as Hcap by reflexivity.
  assert (action_pin a = Some 3) as Hpin by reflexivity.
  assert (Forall in_range [@Poll (list Z)]) as Hacts
    by (repeat constructor).
  do 7 (split; [assumption || exact pending_wf|]).
  destruct (@channel_isolation avr _ 3 2 a pending [Poll]
              pending_wf H3 H2 Hne Hcap Hpin Hacts)
    as (m1 & Hstep & _ & _ & Hd & _ & _ & _ & _ & m' & m1' & Hr & Hr1 & _ & Hc).
  exists m1. split; [exact Hstep|]. split; [rewrite Hd; vm_compute; reflexivity|].
  exists m', m1'. split; [exact Hr|]. split; [exact Hr1|]. exact Hc.
Defined.

Lemma detach_silences_witness :
  wf pending ∧ 2 < PINS_COUNT
  ∧ ∃ m', detach 2 pending = Some m'
      ∧ (2 ∉ enabled m')
      ∧ pipeline (receiver m') 2 = Some (_void, none, identity)
      ∧ ∃ m'', @run avr _ [Isr 2 1 5000; Isr 2 0 7000; Poll] m' = Some m''
          ∧ world m'' = world pending
          ∧ filter is_onChange (calls m'') = filter is_onChange (calls pending).
Proof.
  assert (2 < PINS_COUNT) as H2 by (unfold PINS_COUNT; lia).
  split; [exact pending_wf|]. split; [exact H2|].
  destruct (@detach_silences avr _ 2 pending pending_wf H2)
    as (m' & Hd & _ & Hen & Hp & _ & _ & _ & _ & Hquiet).
  exists m'. split; [exact Hd|]. split; [exact Hen|]. split; [exact Hp|].
  apply Hquiet.
  - intros q Hq. unfold flag_test, pin_mask.
    destruct (decide (q < 20)) as [Hlt|Hge].
    + do 20 (destruct q as [|q]; [by vm_compute|]). lia.
    + apply negb_false_iff, Z.eqb_eq. apply Z.bits_inj'. intros i Hi.
      rewrite Z.land_spec, Z.bits_0.
      change (int_bits (Platform:=avr)) with 16%Z.
      rewrite Z.testbit_mod_pow2 by lia.
      destruct (Z.ltb_spec i 16); [|by rewrite andb_false_r].
      rewrite Z.shiftl_spec by lia.
      rewrite (Z.testbit_neg_r _ (i - Z.of_nat q)) by lia.
      by rewrite !andb_false_r.
  - repeat constructor; unfold in_range, PINS_COUNT; simpl; lia.
  - repeat constructor.
Defined.

Lemma snapshot_consistent_witness :
  Interleaving.entry pending_entry
  ∧ @Interleaving.exec avr pending_schedule pending_entry
    = Some pending_snapshot
  ∧ Interleaving.pc pending_snapshot = Interleaving.AtLoop
  ∧ Interleaving.flags pending_snapshot = 8%Z
  ∧ Interleaving.values pending_snapshot
    = <[2:=1500%Z]> (replicate PINS_COUNT 0%Z)
  ∧ _currentValues (Interleaving.shared pending_snapshot) !! 5 = Some 300%Z
  ∧ ∃ before during after s_i s_c,
      pending_schedule = before ++ during ++ after
      ∧ @Interleaving.exec avr before pending_entry = Some s_i
      ∧ @Interleaving.exec avr during s_i = Some s_c
      ∧ @Interleaving.exec avr after s_c = Some pending_snapshot
      ∧ Interleaving.flags pending_snapshot
        = _changedFlags (Interleaving.shared s_i)
      ∧ Interleaving.values pending_snapshot
        = _currentValues (Interleaving.shared s_i)
      ∧ Interleaving.shared s_c
        = Interleaving.cleared (Interleaving.shared s_i).
Proof.
  assert (Interleaving.entry pending_entry) as Hentry.
  { split; [reflexivity|]. split; [reflexivity|].
    split; [exact (proj2 pending_wf)|reflexivity]. }
  assert (@Interleaving.exec avr pending_schedule pending_entry
          = Some pending_snapshot) as Hexec by (vm_compute; reflexivity).
  assert (Interleaving.pc pending_snapshot = Interleaving.AtLoop) as Hend
    by reflexivity.
  split; [exact Hentry|]. split; [exact Hexec|]. split; [exact Hend|].
  split; [reflexivity|]. split; [reflexivity|]. split; [reflexivity|].
  destruct (@snapshot_consistent avr pending_schedule pending_entry
              pending_snapshot Hentry Hexec Hend)
    as (before & during & after & s_i & s_c & Hsplit & Hb & Hd & Ha
        & _ & _ & _ & Hfl & Hv & Hsh).
  exists before, during, after, s_i, s_c.
  split; [exact Hsplit|]. split; [exact Hb|]. split; [exact Hd|].
  split; [exact Ha|]. split; [exact Hfl|]. split; [exact Hv|exact Hsh].
Defined.

(** * Further properties of the code *)

Section Quiet.
Context `{Platform} {World : Type}.
Implicit Types (r : @PWMReceiver World) (m : @Machine World) (w : World)
  (a : @Action World) (acts : list (@Action World)).

Lemma attach_4_inv (pin : nat) (oc : @OnChangeFunc World) (fl : FilterFunc)
    (tr : TransformFunc) m m' :
  attach_4 pin oc fl tr m = Some m' →
  statics m' = statics m ∧ world m' = world m ∧ calls m' = calls m.
Proof.
  unfold attach_4. intros Hm.
  destruct (arr_set (_onChangeFunctions (receiver m)) pin oc); [|done].
  destruct (arr_set (_filterFunctions (receiver m)) pin fl); [|done].
  destruct (arr_set (_transformFunctions (receiver m)) pin tr); [|done].
  by injection Hm as <-.
Qed.

Lemma detach_inv (pin : nat) m m' :
  detach pin m = Some m' →
  statics m' = statics m ∧ world m' = world m ∧ calls m' = calls m.
Proof.
  unfold detach. intros Hm.
  destruct (arr_set (_onChangeFunctions (receiver m)) pin _void); [|done].
  destruct (arr_set (_filterFunctions (receiver m)) pin none); [|done].
  destruct (arr_set (_transformFunctions (receiver m)) pin identity); [|done].
  by injection Hm as <-.
Qed.

Lemma lookForChanges_empty m :
  _changedFlags (statics m) = 0%Z → lookForChanges m = Some m.
Proof. intros Hz. unfold lookForChanges. by rewrite Hz. Qed.

Lemma isr_rising_inv (pin : nat) (pinState micros : Z) m m' :
  (0 <? pinState)%Z = true → isr pin pinState micros m = Some m' →
  _changedFlags (statics m') = _changedFlags (statics m)
  ∧ world m' = world m ∧ calls m' = calls m.
Proof.
  intros Hst (s' & Hs' & ->)%isr_inv. unfold _handleChange in Hs'.
  rewrite Hst in Hs'.
  destruct (arr_set (_waveStarts (statics m)) pin micros); [|done].
  by injection Hs' as <-.
Qed.

Lemma quiet_run acts m m' :
  _changedFlags (statics m) = 0%Z →
  Forall (λ a, no_falling a = true) acts →
  run acts m = Some m' →
  calls m' = calls m ∧ world m' = world m
  ∧ _changedFlags (statics m') = 0%Z.
Proof.
  intros Hz Hacts. revert m Hz.
  induction Hacts as [|a acts Ha Hacts IH]; intros m Hz Hrun; simpl in Hrun.
  - by injection Hrun as <-.
  - destruct (step a m) as [m1|] eqn:Hstep; [|done]. simpl in Hrun.
    assert (_changedFlags (statics m1) = _changedFlags (statics m)
            ∧ world m1 = world m ∧ calls m1 = calls m) as (Hf & Hw & Hc).
    { destruct a as [q st t|q st t| |q oc fl tr|q]; simpl in Ha, Hstep.
      - case_decide; [by eapply isr_rising_inv|by injection Hstep as <-].
      - by eapply isr_rising_inv.
      - rewrite lookForChanges_empty in Hstep by done.
        by injection Hstep as <-.
      - apply attach_4_inv in Hstep as (-> & -> & ->). done.
      - apply detach_inv in Hstep as (-> & -> & ->). done. }
    destruct (IH m1) as (Hc' & Hw' & Hf'); [congruence|done|].
    split; [congruence|]. split; [congruence|done].
Qed.

(** X1. Once [lookForChanges()] has run, nothing more is delivered until
    a pulse completes: whatever follows among polls, attaches, detaches
    and rising edges, on pins of the receiver, returns, makes no call
    through any pipeline, leaves the user state alone and keeps the
    register empty. In particular a value the filter rejected is not
    offered again, also not to a pipeline attached later. *)
Theorem quiet_until_next_pulse acts m :
  wf m → Forall in_range acts → Forall (λ a, no_falling a = true) acts →
  ∃ m1 m', lookForChanges m = Some m1
    ∧ _changedFlags (statics m1) = 0%Z
    ∧ run acts m1 = Some m'
    ∧ calls m' = calls m1 ∧ world m' = world m1
    ∧ _changedFlags (statics m') = 0%Z.
Proof.
  intros Hwf Hin Hnf.
  destruct (step_is_Some Poll m Hwf) as [m1 Hs1]; [done|].
  pose proof (step_wf _ _ _ Hwf Hs1) as Hwf1.
  assert (_changedFlags (statics m1) = 0%Z) as Hz.
  { simpl in Hs1. rewrite lookForChanges_described in Hs1 by done.
    by injection Hs1 as <-. }
  destruct (run_is_Some acts m1 Hwf1 Hin) as [m' Hrun].
  exists m1, m'. split; [done|]. split; [done|]. split; [done|].
  exact (quiet_run acts m1 m' Hz Hnf Hrun).
Qed.

End Quiet.

Section LastPulse.
Context `{Platform} {World : Type}.
Implicit Types (r : @PWMReceiver World) (m : @Machine World) (w : World)
  (a : @Action World) (acts : list (@Action World)).

(** Transitions change neither the triplet nor the interrupt enable of a
    channel. *)
Lemma captures_keep_pipeline acts (c : nat) (ch : @Channel World) :
  Forall (λ a, is_capture a = true) acts →
  ch_pipeline (foldl (λ ch a, channel_next a c ch) ch acts) = ch_pipeline ch
  ∧ ch_enabled (foldl (λ ch a, channel_next a c ch) ch acts) = ch_enabled ch.
Proof.
  intros Hacts. revert ch.
  induction Hacts as [|a acts Ha Hacts IH]; intros ch; [done|].
  simpl. destruct (IH (channel_next a c ch)) as [-> ->].
  destruct a as [q st t|q st t| | |]; try done; simpl.
  - destruct (bool_decide (q = c) && ch_enabled ch); [|done].
    unfold channel_capture. by destruct (0 <? st)%Z.
  - destruct (bool_decide (q = c)); [|done].
    unfold channel_capture. by destruct (0 <? st)%Z.
Qed.

(** X2. The last completed pulse wins, whatever came before. On an
    attached channel below 15: if the transitions of the channel since
    some moment end with a rising edge at [t_s] and a falling edge at
    [t_f], among any transitions of other pins and after any number of
    earlier edges and pulses of the channel, then the next poll runs the
    pipeline of the channel exactly once, on [(t_f - t_s) mod 2 ^ w]. *)
Theorem last_pulse_wins (c : nat) (oc : @OnChangeFunc World)
    (fl : FilterFunc) (tr : TransformFunc) acts earlier
    (high low t_s t_f : Z) m :
  wf m → c < 15 → c ∈ enabled m →
  pipeline (receiver m) c = Some (oc, fl, tr) →
  Forall (λ a, is_capture a = true) acts → Forall in_range acts →
  filter (λ a, action_pin a = Some c) acts
  = earlier ++ [Edge c high t_s; Edge c low t_f] →
  (0 < high)%Z → (low ≤ 0)%Z →
  ∃ m1 m2,
    run acts m = Some m1 ∧ lookForChanges m1 = Some m2
    ∧ calls_on c (calls m2)
      = calls_on c (calls m)
        ++ pipeline_calls c fl tr ((t_f - t_s) mod 2 ^ ulong_bits)%Z.
Proof.
  intros Hwf Hc Hen Hp Hcap Hin Hfilter Hhi Hlo.
  destruct (run_is_Some acts m Hwf Hin) as [m1 Hrun].
  pose proof (run_wf _ _ _ Hwf Hrun) as Hwf1.
  destruct (step_is_Some Poll m1 Hwf1) as [m2 Hs2]; [done|].
  exists m1, m2. split; [done|]. split; [done|].
  destruct (run_captures acts c m m1 Hwf Hcap Hrun) as [Hch Hcalls].
  destruct (step_channel Poll c m1 m2 Hwf1 Hs2) as [_ ->].
  rewrite Hcalls. f_equal.
  assert (Forall (λ a : @Action World, is_capture a = true) earlier) as Hearlier.
  { assert (Forall (λ a : @Action World, is_capture a = true)
              (filter (λ a, action_pin a = Some c) acts)) as Hf.
    { apply Forall_forall. intros a [_ Ha]%list_elem_of_filter.
      rewrite Forall_forall in Hcap. by apply Hcap. }
    rewrite Hfilter in Hf. by apply Forall_app in Hf as [Hf _]. }
  rewrite Hch, Hfilter, foldl_app.
  destruct (captures_keep_pipeline earlier c (channel c m) Hearlier)
    as [Hpe Hee].
  remember (foldl _ (channel c m) earlier) as ch eqn:Hche. clear Hche.
  simpl in Hpe, Hee. rewrite Hp in Hpe.
  rewrite (bool_decide_eq_true_2 (c ∈ enabled m)) in Hee by done.
  simpl. rewrite !(bool_decide_eq_true_2 (c = c)) by done.
  rewrite Hee. simpl. unfold channel_capture.
  replace (0 <? high)%Z with true by (symmetry; apply Z.ltb_lt; lia).
  replace (0 <? low)%Z with false by (symmetry; apply Z.ltb_ge; lia).
  simpl. rewrite ?Hee. simpl.
  rewrite (bool_decide_eq_true_2 (c < 15)) by done.
  rewrite orb_true_r, Hpe. done.
Qed.

End LastPulse.

Section Deliveries.
Context `{Platform} {World : Type}.
Implicit Types (r : @PWMReceiver World) (m : @Machine World) (w : World)
  (a : @Action World) (acts : list (@Action World)).

(** A poll while exactly one channel, below 15, is dirty. *)
Lemma poll_single (c : nat) (oc : @OnChangeFunc World) (fl : FilterFunc)
    (tr : TransformFunc) (v : Z) m :
  wf m → c < 15 → _changedFlags (statics m) = flag_set 0 c →
  pipeline (receiver m) c = Some (oc, fl, tr) →
  _currentValues (statics m) !! c = Some v →
  lookForChanges m
  = Some {| receiver := receiver m;
            statics := {| _waveStarts := _waveStarts (statics m);
                          _currentValues := _currentValues (statics m);
                          _changedFlags := 0 |};
            enabled := enabled m;
            world := pipeline_effect oc fl tr v (world m);
            calls := calls m ++ pipeline_calls c fl tr v |}.
Proof.
  intros Hwf Hc Hfl Hp Hv. rewrite lookForChanges_described by done.
  unfold described_cycle_effect, described_cycle_calls.
  rewrite Hfl, dirty_pins_single by done. simpl.
  unfold described_effect, described_calls. rewrite Hp, Hv.
  by rewrite app_nil_r.
Qed.

Lemma filter_two_seq (a b start len : nat) :
  a < b →
  filter (λ p, p = a ∨ p = b) (seq start len)
  = (if bool_decide (start ≤ a < start + len) then [a] else [])
    ++ (if bool_decide (start ≤ b < start + len) then [b] else []).
Proof.
  intros Hab. revert start. induction len as [|n IH]; intros start; simpl.
  - rewrite !bool_decide_eq_false_2 by lia. done.
  - destruct (decide (start = a)) as [->|Hna].
    + rewrite filter_cons_True by auto. rewrite IH.
      rewrite (bool_decide_eq_false_2 (S a ≤ a < S a + n)) by lia.
      rewrite (bool_decide_eq_true_2 (a ≤ a < a + S n)) by lia. simpl.
      f_equal. apply (f_equal (λ x : bool, if x then [b] else [])).
      apply bool_decide_ext. lia.
    + destruct (decide (start = b)) as [->|Hnb].
      * rewrite filter_cons_True by auto. rewrite IH.
        rewrite (bool_decide_eq_false_2 (S b ≤ a < S b + n)) by lia.
        rewrite (bool_decide_eq_false_2 (S b ≤ b < S b + n)) by lia.
        rewrite (bool_decide_eq_false_2 (b ≤ a < b + S n)) by lia.
        rewrite (bool_decide_eq_true_2 (b ≤ b < b + S n)) by lia. done.
      * rewrite filter_cons_False by (intros [?|?]; done). rewrite IH.
        f_equal; apply (f_equal (λ x : bool, if x then [_] else []));
          apply bool_decide_ext; lia.
Qed.

Lemma dirty_pins_two (a b : nat) :
  a < b → b < 15 → dirty_pins (flag_set (flag_set 0 b) a) = [a; b].
Proof.
  intros Hab Hb. unfold dirty_pins.
  rewrite (list_filter_iff _ (λ p, p = a ∨ p = b)).
  - rewrite filter_two_seq by done.
    rewrite !bool_decide_eq_true_2; [done|unfold PINS_COUNT; lia..].
  - intros p. rewrite !flag_test_set by (apply flag_set_range || lia).
    rewrite flag_test_0. simpl.
    rewrite (bool_decide_eq_true_2 (a < 15)) by lia.
    rewrite (bool_decide_eq_true_2 (b < 15)) by lia.
    rewrite !andb_true_r, orb_true_iff, !bool_decide_eq_true. tauto.
Qed.

(** X3. A falling edge that no rising edge preceded is measured from
    whatever the wave start of the channel holds, zero after power-on:
    attached to a channel below 15 while nothing is pending, the
    pipeline is then run on [(t - start) mod 2 ^ w], so on the clock
    value itself when the signal was high since power-on. *)
Theorem falling_edge_first (c : nat) (oc : @OnChangeFunc World)
    (fl : FilterFunc) (tr : TransformFunc) (low t start : Z) m :
  wf m → c < 15 → _changedFlags (statics m) = 0%Z →
  _waveStarts (statics m) !! c = Some start → (low ≤ 0)%Z →
  ∃ m', run [Attach c oc fl tr; Edge c low t; Poll] m = Some m'
    ∧ calls m'
      = calls m ++ pipeline_calls c fl tr ((t - start) mod 2 ^ ulong_bits)%Z
    ∧ world m'
      = pipeline_effect oc fl tr ((t - start) mod 2 ^ ulong_bits)%Z (world m).
Proof.
  intros Hwf Hc Hz Hstart Hlo.
  assert (c < PINS_COUNT) as Hc' by (unfold PINS_COUNT; lia).
  pose proof (attach_4_Some c oc fl tr m Hwf Hc') as Hatt.
  set (ma := {| receiver := _; statics := statics m |}) in Hatt.
  assert (wf ma) as Hwfa by (by eapply (step_wf (Attach c oc fl tr))).
  assert (c ∈ enabled ma) as Hen.
  { unfold ma, enableInterrupt. cbn [enabled]. apply elem_of_union_l.
    by apply elem_of_singleton. }
  assert (pipeline (receiver ma) c = Some (oc, fl, tr)) as Hp.
  { unfold ma. cbn [receiver]. destruct Hwf as [Hr _].
    rewrite pipeline_insert by done. by rewrite bool_decide_eq_true_2. }
  pose proof (isr_falling c low t start ma Hwfa Hc' Hlo Hstart) as Hisr.
  set (mb := {| receiver := receiver ma; statics := _ |}) in Hisr.
  assert (wf mb) as Hwfb by (by eapply (step_wf (Isr c low t))).
  eexists. split.
  { cbn [run]. change (step (Attach c oc fl tr) m) with (attach_4 c oc fl tr m).
    rewrite Hatt. cbn [mbind option_bind].
    rewrite step_Edge_enabled, Hisr by done. cbn [mbind option_bind].
    change (step Poll mb) with (lookForChanges mb).
    rewrite (poll_single c oc fl tr (ulong (t - start))); [done|done|done| |done|].
    - unfold mb, ma. cbn [statics _changedFlags]. by rewrite Hz.
    - unfold mb. cbn [statics _currentValues].
      destruct Hwfa as (_ & _ & Hcv & _). apply list_lookup_insert_eq. lia. }
  done.
Qed.

(** X4. A poll runs the pipeline that is installed when it is called,
    not the one that was installed when the pulse was captured: a pulse
    on an enabled channel below 15 followed by [attach] for that channel
    and a poll runs the new pipeline on the duration of that pulse. *)
Theorem pipeline_at_poll_time (c : nat) (oc : @OnChangeFunc World)
    (fl : FilterFunc) (tr : TransformFunc) (high low t_s t_f : Z) m :
  wf m → c < 15 → c ∈ enabled m → _changedFlags (statics m) = 0%Z →
  (0 < high)%Z → (low ≤ 0)%Z →
  ∃ m', run [Edge c high t_s; Edge c low t_f; Attach c oc fl tr; Poll] m
        = Some m'
    ∧ calls m'
      = calls m ++ pipeline_calls c fl tr ((t_f - t_s) mod 2 ^ ulong_bits)%Z
    ∧ world m'
      = pipeline_effect oc fl tr ((t_f - t_s) mod 2 ^ ulong_bits)%Z (world m).
Proof.
  intros Hwf Hc Hen Hz Hhi Hlo.
  assert (c < PINS_COUNT) as Hc' by (unfold PINS_COUNT; lia).
  pose proof (run_pulse c high low t_s t_f m Hwf Hc' Hen Hhi Hlo) as Hpulse.
  set (mp := {| receiver := receiver m; statics := _ |}) in Hpulse.
  assert (wf mp) as Hwfp by (by eapply run_wf).
  pose proof (attach_4_Some c oc fl tr mp Hwfp Hc') as Hatt.
  set (ma := {| receiver := _; statics := statics mp |}) in Hatt.
  assert (wf ma) as Hwfa by (by eapply (step_wf (Attach c oc fl tr))).
  eexists. split.
  { change [Edge c high t_s; Edge c low t_f; Attach c oc fl tr; Poll]
      with ([Edge c high t_s; Edge c low t_f]
            ++ [Attach c oc fl tr; @Poll World]).
    rewrite run_app, Hpulse. cbn [mbind option_bind run].
    change (step (Attach c oc fl tr) mp) with (attach_4 c oc fl tr mp).
    rewrite Hatt. cbn [mbind option_bind].
    change (step Poll ma) with (lookForChanges ma).
    rewrite (poll_single c oc fl tr (ulong (t_f - t_s)));
      [done|done|done| | |].
    - unfold ma, mp. cbn [statics _changedFlags]. by rewrite Hz.
    - unfold ma. cbn [receiver]. destruct Hwfp as [Hr _].
      rewrite pipeline_insert by done. by rewrite bool_decide_eq_true_2.
    - unfold ma, mp. cbn [statics _currentValues].
      destruct Hwf as (_ & _ & Hcv & _). apply list_lookup_insert_eq. lia. }
  done.
Qed.

(** X5. With the two-argument [attach] the callback receives the measured
    duration itself: after [attach(c, onChange)] on a channel below 15
    while nothing is pending, a pulse and a poll call the accept-all
    filter, the identity transform and then [onChange] on
    [(t_f - t_s) mod 2 ^ w], once. *)
Theorem default_attach_delivers_duration (c : nat)
    (oc : @OnChangeFunc World) (high low t_s t_f : Z) m :
  wf m → c < 15 → _changedFlags (statics m) = 0%Z →
  (0 < high)%Z → (low ≤ 0)%Z →
  let d := ((t_f - t_s) mod 2 ^ ulong_bits)%Z in
  ∃ m1 m2, attach_2 c oc m = Some m1
    ∧ run [Edge c high t_s; Edge c low t_f; Poll] m1 = Some m2
    ∧ calls m2
      = calls m ++ [CallFilter c d; CallTransform c d; CallOnChange c d]
    ∧ world m2 = oc d (world m).
Proof.
  intros Hwf Hc Hz Hhi Hlo d.
  assert (c < PINS_COUNT) as Hc' by (unfold PINS_COUNT; lia).
  pose proof (attach_4_Some c oc any identity m Hwf Hc') as Hatt.
  set (ma := {| receiver := _; statics := statics m |}) in Hatt.
  assert (wf ma) as Hwfa by (by eapply (step_wf (Attach c oc any identity))).
  destruct (pulse_poll c oc any identity high low t_s t_f ma)
    as (m2 & Hrun & _ & _ & _ & _ & Hw & Hcalls); [done|done| |done| |done|done|].
  { unfold ma, enableInterrupt. cbn [enabled]. apply elem_of_union_l.
    by apply elem_of_singleton. }
  { unfold ma. cbn [receiver]. destruct Hwf as [Hr _].
    rewrite pipeline_insert by done. by rewrite bool_decide_eq_true_2. }
  exists ma, m2. split; [exact Hatt|]. split; [exact Hrun|].
  split; [exact Hcalls|exact Hw].
Qed.

(** X6. Channels are served in the order of their numbers, not in the
    order in which their pulses completed: with nothing else pending and
    [a < b < 15], a pulse on [b] followed by a pulse on [a] and a poll
    run the pipeline of [a] first and then the pipeline of [b], each on
    its own duration. *)
Theorem served_in_channel_order (a b : nat)
    (oca ocb : @OnChangeFunc World) (fla flb : FilterFunc)
    (tra trb : TransformFunc) (high low sa fa sb fb : Z) m :
  wf m → a < b → b < 15 → a ∈ enabled m → b ∈ enabled m →
  _changedFlags (statics m) = 0%Z →
  pipeline (receiver m) a = Some (oca, fla, tra) →
  pipeline (receiver m) b = Some (ocb, flb, trb) →
  (0 < high)%Z → (low ≤ 0)%Z →
  let da := ((fa - sa) mod 2 ^ ulong_bits)%Z in
  let db := ((fb - sb) mod 2 ^ ulong_bits)%Z in
  ∃ m', run [Edge b high sb; Edge b low fb;
             Edge a high sa; Edge a low fa; Poll] m = Some m'
    ∧ calls m' = calls m ++ pipeline_calls a fla tra da
                   ++ pipeline_calls b flb trb db
    ∧ world m' = pipeline_effect ocb flb trb db
                   (pipeline_effect oca fla tra da (world m)).
Proof.
  intros Hwf Hab Hb Hena Henb Hz Hpa Hpb Hhi Hlo da db.
  assert (a < PINS_COUNT ∧ b < PINS_COUNT) as [Ha' Hb']
    by (unfold PINS_COUNT; lia).
  pose proof (run_pulse b high low sb fb m Hwf Hb' Henb Hhi Hlo) as H1.
  set (m1 := {| receiver := receiver m; statics := _ |}) in H1.
  assert (wf m1) as Hwf1 by (by eapply run_wf).
  pose proof (run_pulse a high low sa fa m1 Hwf1 Ha' Hena Hhi Hlo) as H2.
  set (m2 := {| receiver := receiver m1; statics := _ |}) in H2.
  assert (wf m2) as Hwf2 by (by eapply run_wf).
  eexists. split.
  { change [Edge b high sb; Edge b low fb; Edge a high sa; Edge a low fa; Poll]
      with ([Edge b high sb; Edge b low fb]
            ++ [Edge a high sa; Edge a low fa] ++ [@Poll World]).
    rewrite run_app, H1. cbn [mbind option_bind].
    rewrite run_app, H2. cbn [mbind option_bind run].
    change (step Poll m2) with (lookForChanges m2).
    rewrite lookForChanges_described by done. done. }
  cbn [calls world receiver statics _changedFlags _currentValues m2 m1].
  unfold described_cycle_calls, described_cycle_effect.
  unfold m2, m1. cbn [receiver statics _changedFlags _currentValues].
  rewrite Hz, dirty_pins_two by done.
  destruct Hwf as (_ & _ & Hcv & _).
  cbn [map concat foldl]. unfold described_calls, described_effect.
  rewrite Hpa, Hpb.
  rewrite list_lookup_insert_eq by (rewrite length_insert; lia).
  rewrite list_lookup_insert_ne by lia.
  rewrite list_lookup_insert_eq by lia.
  by rewrite app_nil_r.
Qed.

End Deliveries.

Section Composition.
Context `{Platform} {World : Type}.
Implicit Types (r : @PWMReceiver World) (m : @Machine World) (w : World).

Lemma enable_disable (p : nat) (e : gset nat) :
  enableInterrupt p (disableInterrupt p e) = enableInterrupt p e.
Proof.
  unfold enableInterrupt, disableInterrupt. apply set_eq. intros x.
  rewrite !elem_of_union, elem_of_difference, elem_of_singleton.
  destruct (decide (x = p)); tauto.
Qed.

Lemma disable_enable (p : nat) (e : gset nat) :
  disableInterrupt p (enableInterrupt p e) = disableInterrupt p e.
Proof.
  unfold enableInterrupt, disableInterrupt. apply set_eq. intros x.
  rewrite !elem_of_difference, elem_of_union, elem_of_singleton. tauto.
Qed.

Lemma disable_disable (p : nat) (e : gset nat) :
  disableInterrupt p (disableInterrupt p e) = disableInterrupt p e.
Proof.
  unfold disableInterrupt. apply set_eq. intros x.
  rewrite !elem_of_difference. tauto.
Qed.

Lemma enable_enable_comm (p q : nat) (e : gset nat) :
  enableInterrupt q (enableInterrupt p e)
  = enableInterrupt p (enableInterrupt q e).
Proof.
  unfold enableInterrupt. apply set_eq. intros x.
  rewrite !elem_of_union. tauto.
Qed.

Lemma disable_enable_comm (p q : nat) (e : gset nat) :
  p ≠ q →
  disableInterrupt q (enableInterrupt p e)
  = enableInterrupt p (disableInterrupt q e).
Proof.
  intros Hpq. unfold enableInterrupt, disableInterrupt. apply set_eq.
  intros x.
  rewrite elem_of_difference, !elem_of_union, elem_of_difference,
    !elem_of_singleton.
  destruct (decide (x = p)); [subst; tauto|tauto].
Qed.

Lemma wf_after_attach (p : nat) (oc : @OnChangeFunc World) (fl : FilterFunc)
    (tr : TransformFunc) m :
  wf m →
  wf {| receiver :=
          {| _onChangeFunctions := <[p:=oc]> (_onChangeFunctions (receiver m));
             _filterFunctions := <[p:=fl]> (_filterFunctions (receiver m));
             _transformFunctions := <[p:=tr]> (_transformFunctions (receiver m)) |};
        statics := statics m; enabled := enableInterrupt p (enabled m);
        world := world m; calls := calls m |}.
Proof. intros [Hr Hs]. split; [by apply wf_receiver_insert|done]. Qed.

Lemma wf_after_detach (p : nat) m :
  wf m →
  wf {| receiver :=
          {| _onChangeFunctions := <[p:=_void]> (_onChangeFunctions (receiver m));
             _filterFunctions := <[p:=none]> (_filterFunctions (receiver m));
             _transformFunctions := <[p:=identity]> (_transformFunctions (receiver m)) |};
        statics := statics m; enabled := disableInterrupt p (enabled m);
        world := world m; calls := calls m |}.
Proof. intros [Hr Hs]. split; [by apply wf_receiver_insert|done]. Qed.

(** X7. On one pin of the receiver the last of [attach] and [detach]
    decides: [detach] then [attach] is the [attach] alone, [attach] then
    [detach] is the [detach] alone, and a second [detach] changes
    nothing; so a channel can be detached and attached again at will. *)
Theorem last_registration_decides (p : nat) (oc : @OnChangeFunc World)
    (fl : FilterFunc) (tr : TransformFunc) m :
  wf m → p < PINS_COUNT →
  is_Some (attach_4 p oc fl tr m) ∧ is_Some (detach p m)
  ∧ detach p m ≫= attach_4 p oc fl tr = attach_4 p oc fl tr m
  ∧ attach_4 p oc fl tr m ≫= detach p = detach p m
  ∧ detach p m ≫= detach p = detach p m.
Proof.
  intros Hwf Hp.
  rewrite !attach_4_Some, !detach_Some by done.
  split; [eauto|]. split; [eauto|]. cbn [mbind option_bind].
  rewrite attach_4_Some by (by apply wf_after_detach || done).
  rewrite !detach_Some
    by (by apply wf_after_detach || by apply wf_after_attach || done).
  cbn [receiver statics enabled world calls _onChangeFunctions
       _filterFunctions _transformFunctions].
  rewrite !list_insert_insert_eq.
  by rewrite enable_disable, disable_enable, disable_disable.
Qed.

(** X8. Registrations on different pins of the receiver do not interfere:
    two [attach] calls, or an [attach] and a [detach], on distinct pins
    give the same state in either order. *)
Theorem registrations_commute (p q : nat) (ocp ocq : @OnChangeFunc World)
    (flp flq : FilterFunc) (trp trq : TransformFunc) m :
  wf m → p < PINS_COUNT → q < PINS_COUNT → p ≠ q →
  is_Some (attach_4 p ocp flp trp m ≫= attach_4 q ocq flq trq)
  ∧ attach_4 p ocp flp trp m ≫= attach_4 q ocq flq trq
    = attach_4 q ocq flq trq m ≫= attach_4 p ocp flp trp
  ∧ attach_4 p ocp flp trp m ≫= detach q
    = detach q m ≫= attach_4 p ocp flp trp.
Proof.
  intros Hwf Hp Hq Hpq.
  rewrite !attach_4_Some, !detach_Some by done. cbn [mbind option_bind].
  rewrite !attach_4_Some
    by (by apply wf_after_detach || by apply wf_after_attach || done).
  rewrite !detach_Some
    by (by apply wf_after_detach || by apply wf_after_attach || done).
  cbn [receiver statics enabled world calls _onChangeFunctions
       _filterFunctions _transformFunctions].
  split; [eauto|].
  rewrite !(list_insert_insert_ne _ q p) by (by apply not_eq_sym).
  by rewrite enable_enable_comm, disable_enable_comm.
Qed.

End Composition.

Section HandlerOrder.
Context `{Platform}.
Local Open Scope Z_scope.

Lemma flag_set_comm (flags : Z) (a b : nat) :
  0 ≤ flags < 2 ^ 16 →
  flag_set (flag_set flags a) b = flag_set (flag_set flags b) a.
Proof.
  intros Hf. apply Z.bits_inj'. intros i Hi.
  rewrite !flag_set_testbit by (apply flag_set_range || lia).
  rewrite <- !orb_assoc. f_equal. apply orb_comm.
Qed.

(** X9. Captures on different channels are independent of their order:
    for distinct pins of the receiver, running the handler for one and
    then for the other leaves the same wave starts, values and flag
    register as running it for them in the opposite order, and neither
    order fails. *)
Theorem handler_order_irrelevant (a b : nat) (sa sb ta tb : Z) (s : Statics) :
  wf_statics s → (a < PINS_COUNT)%nat → (b < PINS_COUNT)%nat → a ≠ b →
  is_Some (_handleChange a sa ta s ≫= _handleChange b sb tb)
  ∧ _handleChange a sa ta s ≫= _handleChange b sb tb
    = _handleChange b sb tb s ≫= _handleChange a sa ta.
Proof.
  intros Hwf Ha Hb Hab.
  destruct (handleChange_is_Some a sa ta s Hwf Ha) as [s1 H1].
  destruct (handleChange_is_Some b sb tb s Hwf Hb) as [s2 H2].
  pose proof (handleChange_wf _ _ _ _ _ Hwf H1) as Hwf1.
  pose proof (handleChange_wf _ _ _ _ _ Hwf H2) as Hwf2.
  destruct (handleChange_is_Some b sb tb s1 Hwf1 Hb) as [s12 H12].
  destruct (handleChange_is_Some a sa ta s2 Hwf2 Ha) as [s21 H21].
  rewrite H1, H2. cbn [mbind option_bind]. rewrite H12, H21.
  split; [eauto|]. f_equal.
  destruct Hwf as (Hws & Hcv & Hfl).
  destruct (Z_lt_dec 0 sa) as [Hsa|Hsa], (Z_lt_dec 0 sb) as [Hsb|Hsb].
  - rewrite (handleChange_rising a) in H1, H21 by done.
    rewrite (handleChange_rising b) in H2, H12 by done.
    simplify_eq. cbn. by rewrite (list_insert_insert_ne _ a b).
  - rewrite (handleChange_rising a) in H1, H21 by done.
    destruct (handleChange_falling b sb tb s) as (st & Hst & E);
      [done|done|lia|].
    destruct (handleChange_falling b sb tb s1) as (st' & Hst' & E');
      [done|done|lia|].
    rewrite E in H2. rewrite E' in H12. simplify_eq. cbn in *.
    rewrite list_lookup_insert_ne in Hst' by done. by simplify_eq.
  - rewrite (handleChange_rising b) in H2, H12 by done.
    destruct (handleChange_falling a sa ta s) as (st & Hst & E);
      [done|done|lia|].
    destruct (handleChange_falling a sa ta s2) as (st' & Hst' & E');
      [done|done|lia|].
    rewrite E in H1. rewrite E' in H21. simplify_eq. cbn in *.
    rewrite list_lookup_insert_ne in Hst' by done. by simplify_eq.
  - destruct (handleChange_falling a sa ta s) as (sta & Hsta & Ea);
      [done|done|lia|].
    destruct (handleChange_falling b sb tb s) as (stb & Hstb & Eb);
      [done|done|lia|].
    destruct (handleChange_falling b sb tb s1) as (stb' & Hstb' & Eb');
      [done|done|lia|].
    destruct (handleChange_falling a sa ta s2) as (sta' & Hsta' & Ea');
      [done|done|lia|].
    rewrite Ea in H1. rewrite Eb in H2. rewrite Eb' in H12.
    rewrite Ea' in H21. simplify_eq. cbn in *. simplify_eq.
    rewrite (list_insert_insert_ne _ a b) by done.
    by rewrite flag_set_comm.
Qed.

End HandlerOrder.

Section CriticalSection.
Import Interleaving.
Context `{Platform}.
Implicit Types (s : System) (schedule : list Event).

Lemma sys_step_interrupts (e : Event) s s' :
  interruptsOn s = negb (critical (pc s)) → sys_step e s = Some s' →
  interruptsOn s' = negb (critical (pc s')).
Proof.
  intros Hinv Hstep. destruct e as [|pin st t]; simpl in Hstep.
  - unfold main_step in Hstep.
    destruct (pc s) as [| | |i| | | |] eqn:Hpc; simpl in Hinv.
    + by destruct (_changedFlags (shared s) =? 0)%Z; injection Hstep as <-.
    + by injection Hstep as <-.
    + by injection Hstep as <-.
    + case_decide; [|by injection Hstep as <-].
      destruct (_currentValues (shared s) !! i); [|done]. simpl in Hstep.
      destruct (arr_set (values s) i z); [|done].
      by injection Hstep as <-.
    + by injection Hstep as <-.
    + by injection Hstep as <-.
    + injection Hstep as <-. by rewrite Hpc.
    + injection Hstep as <-. by rewrite Hpc.
  - destruct (interruptsOn s) eqn:Hie; [|injection Hstep as <-; congruence].
    destruct (_handleChange pin st t (shared s)); [|done].
    by injection Hstep as <-.
Qed.

(** X10. [lookForChanges()] never leaves interrupts disabled: in every
    interleaving of the call with transitions, interrupts are off exactly
    while the main program is between [noInterrupts()] and
    [interrupts()]; when it returns early or reaches the dispatch loop
    they are on, so the filters, transforms and callbacks run with
    interrupts enabled. *)
Theorem interrupts_off_only_in_critical_section schedule s0 s :
  entry s0 → exec schedule s0 = Some s →
  interruptsOn s = negb (critical (pc s)).
Proof.
  intros (Hpc & Hie & _ & _) Hexec.
  assert (interruptsOn s0 = negb (critical (pc s0))) as Hinv
    by (by rewrite Hpc, Hie).
  clear Hpc Hie. revert s0 Hinv Hexec.
  induction schedule as [|e l IH]; intros s0 Hinv Hexec; simpl in Hexec.
  - by injection Hexec as <-.
  - destruct (sys_step e s0) as [s1|] eqn:Hstep; [|done]. simpl in Hexec.
    apply (IH s1); [|done]. by eapply sys_step_interrupts.
Qed.

End CriticalSection.

Section Ranges.
Context `{Platform} {World : Type}.
Implicit Types (r : @PWMReceiver World) (m : @Machine World) (w : World)
  (a : @Action World) (acts : list (@Action World)).

Lemma ulong_is_ulong (z : Z) : is_ulong (ulong z).
Proof.
  unfold is_ulong, ulong. apply Z.mod_pos_bound.
  pose proof ulong_bits_min. apply Z.pow_pos_nonneg; lia.
Qed.

Lemma handleChange_values (pin : nat) (pinState micros : Z) (s s' : Statics) :
  Forall is_ulong (_currentValues s) →
  _handleChange pin pinState micros s = Some s' →
  Forall is_ulong (_currentValues s').
Proof.
  intros Hv. unfold _handleChange.
  destruct (0 <? pinState)%Z; intros Hs; simplify_option_eq; [done|].
  match goal with Ha : arr_set _ _ _ = Some _ |- _ =>
    apply arr_set_inv in Ha as [_ ->] end.
  apply Forall_insert; [done|apply ulong_is_ulong].
Qed.

Lemma described_calls_on_ulong r (values : list Z) (p : nat) :
  Forall is_ulong values → Forall call_on_ulong (described_calls r values p).
Proof.
  intros Hv. unfold described_calls.
  destruct (pipeline r p) as [[[oc fl] tr]|]; [|constructor].
  destruct (values !! p) as [v|] eqn:Hp; [|constructor].
  assert (is_ulong v) as Hu by (by eapply (Forall_lookup_1 is_ulong values)).
  unfold pipeline_calls. destruct (fl v).
  - apply Forall_cons_2; [exact Hu|]. apply Forall_cons_2; [exact Hu|].
    apply Forall_cons_2; [exact I|]. apply Forall_nil_2.
  - apply Forall_cons_2; [exact Hu|]. apply Forall_nil_2.
Qed.

Lemma step_ranges a m m' :
  wf m → Forall is_ulong (_currentValues (statics m)) →
  Forall call_on_ulong (calls m) → step a m = Some m' →
  Forall is_ulong (_currentValues (statics m'))
  ∧ Forall call_on_ulong (calls m').
Proof.
  intros Hwf Hv Hc Hstep.
  destruct a as [q st t|q st t| |q oc fl tr|q]; simpl in Hstep.
  - case_decide; [|by injection Hstep as <-].
    apply isr_inv in Hstep as (s' & Hs' & ->).
    split; [by eapply handleChange_values|done].
  - apply isr_inv in Hstep as (s' & Hs' & ->).
    split; [by eapply handleChange_values|done].
  - rewrite lookForChanges_described in Hstep by done.
    injection Hstep as <-. split; [done|]. cbn [calls].
    apply Forall_app. split; [done|].
    unfold described_cycle_calls. apply Forall_concat, Forall_fmap.
    apply Forall_forall. intros p _. by apply described_calls_on_ulong.
  - apply attach_4_inv in Hstep as (-> & _ & ->). done.
  - apply detach_inv in Hstep as (-> & _ & ->). done.
Qed.

(** X12. Every value a filter or a transform is called with is an
    [unsigned long]: if the value slots hold values below [2 ^ w], as
    they do at power-on, they do so after every history, and every call
    of a filter and of a transform in the log is on such a value. *)
Theorem pipelines_see_unsigned_longs acts m :
  wf m → Forall is_ulong (_currentValues (statics m)) →
  Forall call_on_ulong (calls m) → Forall in_range acts →
  ∃ m', run acts m = Some m'
    ∧ Forall is_ulong (_currentValues (statics m'))
    ∧ Forall call_on_ulong (calls m').
Proof.
  intros Hwf Hv Hc Hin.
  destruct (run_is_Some acts m Hwf Hin) as [m' Hrun].
  exists m'. split; [done|]. clear Hin.
  revert m Hwf Hv Hc Hrun.
  induction acts as [|a acts IH]; intros m Hwf Hv Hc Hrun; simpl in Hrun.
  - by injection Hrun as <-.
  - destruct (step a m) as [m1|] eqn:Hstep; [|done]. simpl in Hrun.
    destruct (step_ranges a m m1 Hwf Hv Hc Hstep) as [Hv1 Hc1].
    apply (IH m1); [by eapply step_wf|done..].
Qed.

End Ranges.

(** * The further properties on a sample program *)

Lemma idle_wf : wf idle.
Proof.
  split; [by repeat split|].
  split; [reflexivity|]. split; [reflexivity|]. simpl. lia.
Defined.

Lemma quiet_until_next_pulse_witness :
  let acts : list (@Action (list Z)) :=
    [Attach 2 store any identity; Edge 2 1 10; Poll; Detach 2] in
  wf pending ∧ Forall in_range acts
  ∧ Forall (λ a, no_falling a = true) acts
  ∧ ∃ m1 m', @lookForChanges avr _ pending = Some m1
      ∧ _changedFlags (statics m1) = 0%Z
      ∧ @run avr _ acts m1 = Some m'
      ∧ calls m' = calls m1 ∧ world m' = world m1
      ∧ _changedFlags (statics m') = 0%Z.
Proof.
  intros acts.
  assert (Forall in_range acts) as Hin
    by (repeat constructor; unfold in_range, PINS_COUNT; simpl; lia).
  assert (Forall (λ a : @Action (list Z), no_falling a = true) acts) as Hnf
    by (repeat constructor).
  split; [exact pending_wf|]. split; [exact Hin|]. split; [exact Hnf|].
  exact (@quiet_until_next_pulse avr _ acts pending pending_wf Hin Hnf).
Defined.

Lemma last_pulse_wins_witness :
  let acts : list (@Action (list Z)) :=
    [Edge 2 1 0; Edge 2 0 500; Isr 3 1 7; Edge 2 1 1000; Edge 2 0 3000] in
  wf pending ∧ 2 < 15 ∧ 2 ∈ enabled pending
  ∧ pipeline (receiver pending) 2 = Some (store, any, identity)
  ∧ Forall (λ a, is_capture a = true) acts ∧ Forall in_range acts
  ∧ filter (λ a, action_pin a = Some 2) acts
    = [Edge 2 1 0; Edge 2 0 500] ++ [Edge 2 1 1000; Edge 2 0 3000]
  ∧ (0 < 1)%Z ∧ (0 ≤ 0)%Z
  ∧ ∃ m1 m2, @run avr _ acts pending = Some m1
      ∧ @lookForChanges avr _ m1 = Some m2
      ∧ calls_on 2 (calls m2)
        = calls_on 2 (calls pending)
          ++ pipeline_calls 2 any identity ((3000 - 1000) mod 2 ^ 32)%Z.
Proof.
  intros acts.
  assert (2 < 15) as H2 by lia.
  assert (2 ∈ enabled pending) as Hen by (by apply elem_of_singleton).
  assert (pipeline (receiver pending) 2 = Some (store, any, identity)) as Hp
    by reflexivity.
  assert (Forall (λ a : @Action (list Z), is_capture a = true) acts) as Hcap
    by (repeat constructor).
  assert (Forall in_range acts) as Hin
    by (repeat constructor; unfold in_range, PINS_COUNT; simpl; lia).
  assert (filter (λ a, action_pin a = Some 2) acts
          = [Edge 2 1 0; Edge 2 0 500] ++ [Edge 2 1 1000; Edge 2 0 3000])
    as Hf by reflexivity.
  assert (0 < 1)%Z as Hhi by lia.
  assert (0 ≤ 0)%Z as Hlo by lia.
  do 9 (split; [assumption || exact pending_wf|]).
  exact (@last_pulse_wins avr _ 2 store any identity acts
           [Edge 2 1 0; Edge 2 0 500] 1 0 1000 3000 pending
           pending_wf H2 Hen Hp Hcap Hin Hf Hhi Hlo).
Defined.

Lemma falling_edge_first_witness :
  wf power_on ∧ 3 < 15 ∧ _changedFlags (statics power_on) = 0%Z
  ∧ _waveStarts (statics power_on) !! 3 = Some 0%Z ∧ (0 ≤ 0)%Z
  ∧ ∃ m', @run avr _ [Attach 3 store any identity; Edge 3 0 123456; Poll]
            power_on = Some m'
      ∧ calls m'
        = calls power_on
          ++ pipeline_calls 3 any identity ((123456 - 0) mod 2 ^ 32)%Z
      ∧ world m'
        = pipeline_effect store any identity ((123456 - 0) mod 2 ^ 32)%Z
            (world power_on).
Proof.
  assert (3 < 15) as H3 by lia.
  assert (_changedFlags (statics power_on) = 0%Z) as Hz by reflexivity.
  assert (_waveStarts (statics power_on) !! 3 = Some 0%Z) as Hs by reflexivity.
  assert (0 ≤ 0)%Z as Hlo by lia.
  do 5 (split; [assumption || exact power_on_wf|]).
  exact (@falling_edge_first avr _ 3 store any identity 0 123456 0 power_on
           power_on_wf H3 Hz Hs Hlo).
Defined.

Lemma pipeline_at_poll_time_witness :
  wf idle ∧ 2 < 15 ∧ 2 ∈ enabled idle
  ∧ _changedFlags (statics idle) = 0%Z ∧ (0 < 1)%Z ∧ (0 ≤ 0)%Z
  ∧ ∃ m', @run avr _ [Edge 2 1 1000; Edge 2 0 3000;
                      Attach 2 store (λ x, x <? 1000)%Z identity; Poll] idle
          = Some m'
      ∧ calls m'
        = calls idle
          ++ pipeline_calls 2 (λ x, x <? 1000)%Z identity
               ((3000 - 1000) mod 2 ^ 32)%Z
      ∧ world m'
        = pipeline_effect store (λ x, x <? 1000)%Z identity
            ((3000 - 1000) mod 2 ^ 32)%Z (world idle).
Proof.
  assert (2 < 15) as H2 by lia.
  assert (2 ∈ enabled idle) as Hen
    by (unfold idle; cbn [enabled]; apply elem_of_union_l;
        by apply elem_of_singleton).
  assert (_changedFlags (statics idle) = 0%Z) as Hz by reflexivity.
  assert (0 < 1)%Z as Hhi by lia.
  assert (0 ≤ 0)%Z as Hlo by lia.
  do 6 (split; [assumption || exact idle_wf|]).
  exact (@pipeline_at_poll_time avr _ 2 store (λ x, x <? 1000)%Z identity
           1 0 1000 3000 idle idle_wf H2 Hen Hz Hhi Hlo).
Defined.

Lemma default_attach_delivers_duration_witness :
  wf power_on ∧ 3 < 15 ∧ _changedFlags (statics power_on) = 0%Z
  ∧ (0 < 1)%Z ∧ (0 ≤ 0)%Z
  ∧ ∃ m1 m2, attach_2 3 store power_on = Some m1
      ∧ @run avr _ [Edge 3 1 1000; Edge 3 0 3000; Poll] m1 = Some m2
      ∧ calls m2
        = calls power_on
          ++ [CallFilter 3 ((3000 - 1000) mod 2 ^ 32)%Z;
              CallTransform 3 ((3000 - 1000) mod 2 ^ 32)%Z;
              CallOnChange 3 ((3000 - 1000) mod 2 ^ 32)%Z]
      ∧ world m2 = store ((3000 - 1000) mod 2 ^ 32)%Z (world power_on).
Proof.
  assert (3 < 15) as H3 by lia.
  assert (_changedFlags (statics power_on) = 0%Z) as Hz by reflexivity.
  assert (0 < 1)%Z as Hhi by lia.
  assert (0 ≤ 0)%Z as Hlo by lia.
  do 5 (split; [assumption || exact power_on_wf|]).
  exact (@default_attach_delivers_duration avr _ 3 store 1 0 1000 3000
           power_on power_on_wf H3 Hz Hhi Hlo).
Defined.

Lemma served_in_channel_order_witness :
  wf idle ∧ 2 < 5 ∧ 5 < 15 ∧ 2 ∈ enabled idle ∧ 5 ∈ enabled idle
  ∧ _changedFlags (statics idle) = 0%Z
  ∧ pipeline (receiver idle) 2 = Some (store, any, identity)
  ∧ pipeline (receiver idle) 5 = Some (store, any, identity)
  ∧ (0 < 1)%Z ∧ (0 ≤ 0)%Z
  ∧ ∃ m', @run avr _ [Edge 5 1 100; Edge 5 0 400;
                      Edge 2 1 1000; Edge 2 0 3000; Poll] idle = Some m'
      ∧ calls m'
        = calls idle
          ++ pipeline_calls 2 any identity ((3000 - 1000) mod 2 ^ 32)%Z
          ++ pipeline_calls 5 any identity ((400 - 100) mod 2 ^ 32)%Z
      ∧ world m'
        = pipeline_effect store any identity ((400 - 100) mod 2 ^ 32)%Z
            (pipeline_effect store any identity
               ((3000 - 1000) mod 2 ^ 32)%Z (world idle)).
Proof.
  assert (2 < 5) as H25 by lia.
  assert (5 < 15) as H5 by lia.
  assert (2 ∈ enabled idle) as He2
    by (unfold idle; cbn [enabled]; apply elem_of_union_l;
        by apply elem_of_singleton).
  assert (5 ∈ enabled idle) as He5
    by (unfold idle; cbn [enabled]; apply elem_of_union_r;
        by apply elem_of_singleton).
  assert (_changedFlags (statics idle) = 0%Z) as Hz by reflexivity.
  assert (pipeline (receiver idle) 2 = Some (store, any, identity)) as Hp2
    by reflexivity.
  assert (pipeline (receiver idle) 5 = Some (store, any, identity)) as Hp5
    by reflexivity.
  assert (0 < 1)%Z as Hhi by lia.
  assert (0 ≤ 0)%Z as Hlo by lia.
  do 10 (split; [assumption || exact idle_wf|]).
  exact (@served_in_channel_order avr _ 2 5 store store any any
           identity identity 1 0 1000 3000 100 400 idle
           idle_wf H25 H5 He2 He5 Hz Hp2 Hp5 Hhi Hlo).
Defined.

Lemma last_registration_decides_witness :
  wf power_on ∧ 3 < PINS_COUNT
  ∧ is_Some (attach_4 3 store any identity power_on)
  ∧ is_Some (detach 3 power_on)
  ∧ detach 3 power_on ≫= attach_4 3 store any identity
    = attach_4 3 store any identity power_on
  ∧ attach_4 3 store any identity power_on ≫= detach 3 = detach 3 power_on
  ∧ detach 3 power_on ≫= detach 3 = detach 3 power_on.
Proof.
  assert (3 < PINS_COUNT) as H3 by (unfold PINS_COUNT; lia).
  split; [exact power_on_wf|]. split; [exact H3|].
  exact (@last_registration_decides _ 3 store any identity power_on
           power_on_wf H3).
Defined.

Lemma registrations_commute_witness :
  wf power_on ∧ 3 < PINS_COUNT ∧ 4 < PINS_COUNT ∧ 3 ≠ 4
  ∧ is_Some (attach_4 3 store any identity power_on
             ≫= attach_4 4 store none identity)
  ∧ attach_4 3 store any identity power_on ≫= attach_4 4 store none identity
    = attach_4 4 store none identity power_on
      ≫= attach_4 3 store any identity
  ∧ attach_4 3 store any identity power_on ≫= detach 4
    = detach 4 power_on ≫= attach_4 3 store any identity.
Proof.
  assert (3 < PINS_COUNT) as H3 by (unfold PINS_COUNT; lia).
  assert (4 < PINS_COUNT) as H4 by (unfold PINS_COUNT; lia).
  assert (3 ≠ 4) as Hne by lia.
  do 4 (split; [assumption || exact power_on_wf|]).
  exact (@registrations_commute _ 3 4 store store any none
           identity identity power_on power_on_wf H3 H4 Hne).
Defined.

Lemma handler_order_irrelevant_witness :
  wf_statics (statics pending) ∧ 2 < PINS_COUNT ∧ 5 < PINS_COUNT ∧ 2 ≠ 5
  ∧ is_Some (@_handleChange avr 2 0 4000 (statics pending)
             ≫= @_handleChange avr 5 0 700)
  ∧ @_handleChange avr 2 0 4000 (statics pending) ≫= @_handleChange avr 5 0 700
    = @_handleChange avr 5 0 700 (statics pending)
      ≫= @_handleChange avr 2 0 4000.
Proof.
  assert (2 < PINS_COUNT) as H2 by (unfold PINS_COUNT; lia).
  assert (5 < PINS_COUNT) as H5 by (unfold PINS_COUNT; lia).
  assert (2 ≠ 5) as Hne by lia.
  split; [exact (proj2 pending_wf)|].
  do 3 (split; [assumption|]).
  exact (@handler_order_irrelevant avr 2 5 0 0 4000 700 (statics pending)
           (proj2 pending_wf) H2 H5 Hne).
Defined.

Lemma interrupts_off_only_in_critical_section_witness :
  Interleaving.entry pending_entry
  ∧ @Interleaving.exec avr pending_schedule pending_entry
    = Some pending_snapshot
  ∧ Interleaving.interruptsOn pending_snapshot
    = negb (Interleaving.critical (Interleaving.pc pending_snapshot)).
Proof.
  assert (Interleaving.entry pending_entry) as Hentry.
  { split; [reflexivity|]. split; [reflexivity|].
    split; [exact (proj2 pending_wf)|reflexivity]. }
  assert (@Interleaving.exec avr pending_schedule pending_entry
          = Some pending_snapshot) as Hexec by (vm_compute; reflexivity).
  split; [exact Hentry|]. split; [exact Hexec|].
  exact (@interrupts_off_only_in_critical_section avr pending_schedule
           pending_entry pending_snapshot Hentry Hexec).
Defined.

Lemma pipelines_see_unsigned_longs_witness :
  let acts : list (@Action (list Z)) :=
    [Attach 3 store any identity; Edge 3 1 4294967000; Edge 3 0 200; Poll] in
  wf power_on
  ∧ Forall (@is_ulong avr) (_currentValues (statics power_on))
  ∧ Forall (@call_on_ulong avr) (calls power_on)
  ∧ Forall in_range acts
  ∧ ∃ m', @run avr _ acts power_on = Some m'
      ∧ Forall (@is_ulong avr) (_currentValues (statics m'))
      ∧ Forall (@call_on_ulong avr) (calls m').
Proof.
  intros acts.
  assert (Forall (@is_ulong avr) (_currentValues (statics power_on))) as Hv.
  { apply Forall_forall. intros x [-> _]%elem_of_replicate.
    unfold is_ulong. simpl. lia. }
  assert (Forall (@call_on_ulong avr) (calls power_on)) as Hc
    by apply Forall_nil_2.
  assert (Forall in_range acts) as Hin
    by (repeat constructor; unfold in_range, PINS_COUNT; simpl; lia).
  split; [exact power_on_wf|]. split; [exact Hv|]. split; [exact Hc|].
  split; [exact Hin|].
  exact (@pipelines_see_unsigned_longs avr _ acts power_on
           power_on_wf Hv Hc Hin).
Defined.

Section SequentialCall.
Import Interleaving.
Context `{Platform} {World : Type}.
Implicit Types (m : @Machine World) (s : System).

(** X13. A call of [lookForChanges()] that no transition interrupts is
    the sequential [lookForChanges]: run statement by statement from a
    state of the receiver, it ends with interrupts enabled; if the
    register was empty it has returned and changed nothing, as the
    sequential function does; otherwise it is in its loop, its local
    copies are the register and the values of that state, and the
    sequential function returns the state whose statics are those the
    run has left and whose user state and call log are those of the loop
    over these local copies. *)
Theorem uninterrupted_call_is_sequential m s0 :
  entry s0 → shared s0 = statics m → wf_receiver (receiver m) →
  ∃ n s, exec (replicate n Main) s0 = Some s
    ∧ interruptsOn s = true
    ∧ ((_changedFlags (statics m) = 0%Z ∧ pc s = AtReturn
        ∧ shared s = statics m ∧ lookForChanges m = Some m)
       ∨ (_changedFlags (statics m) ≠ 0%Z ∧ pc s = AtLoop
          ∧ flags s = _changedFlags (statics m)
          ∧ values s = _currentValues (statics m)
          ∧ ∃ w log,
              for_pins (PINS_COUNT - 0) 0 (receiver m) (flags s) (values s)
                (world m) = Some (w, log)
              ∧ lookForChanges m
                = Some {| receiver := receiver m; statics := shared s;
                          enabled := enabled m; world := w;
                          calls := calls m ++ log |})).
Proof.
  intros Hentry Hsh Hr.
  pose proof Hentry as (Hpc & Hie & Hwfs & Hlen).
  destruct (Z.eq_dec (_changedFlags (statics m)) 0%Z) as [Hz|Hnz].
  - exists 1, (goto AtReturn s0). split.
    { simpl. unfold main_step. rewrite Hpc, Hsh, Hz. done. }
    split; [done|]. left. split; [done|]. split; [done|].
    split; [done|]. unfold lookForChanges. by rewrite Hz.
  - exists 22. eexists. split.
    { apply snapshot_uninterrupted; [done|by rewrite Hsh]. }
    split; [done|]. right. cbn [pc flags values shared].
    rewrite Hsh. split; [done|]. split; [done|]. split; [done|].
    split; [done|].
    rewrite Hsh in Hwfs. pose proof Hwfs as (_ & Hcv & _).
    rewrite for_pins_described by (done || (unfold PINS_COUNT; lia)).
    eexists _, _. split; [done|].
    unfold lookForChanges. apply Z.eqb_neq in Hnz. rewrite Hnz.
    rewrite for_pins_described by (done || (unfold PINS_COUNT; lia)).
    done.
Qed.

End SequentialCall.

Lemma uninterrupted_call_is_sequential_witness :
  Interleaving.entry pending_entry
  ∧ Interleaving.shared pending_entry = statics pending
  ∧ wf_receiver (receiver pending)
  ∧ ∃ n s, @Interleaving.exec avr (replicate n Interleaving.Main) pending_entry
           = Some s
      ∧ Interleaving.pc s = Interleaving.AtLoop
      ∧ Interleaving.flags s = 8%Z
      ∧ @lookForChanges avr _ pending
        = Some {| receiver := receiver pending;
                  statics := Interleaving.shared s;
                  enabled := enabled pending;
                  world := [1500%Z];
                  calls := [CallFilter 2 1500; CallTransform 2 1500;
                            CallOnChange 2 1500] |}.
Proof.
  assert (Interleaving.entry pending_entry) as Hentry.
  { split; [reflexivity|]. split; [reflexivity|].
    split; [exact (proj2 pending_wf)|reflexivity]. }
  assert (Interleaving.shared pending_entry = statics pending) as Hsh
    by reflexivity.
  split; [exact Hentry|]. split; [exact Hsh|].
  split; [exact (proj1 pending_wf)|].
  destruct (@uninterrupted_call_is_sequential avr _ pending pending_entry
              Hentry Hsh (proj1 pending_wf))
    as (n & s & Hexec & _ & [(Hz & _)|(_ & Hpc & Hfl & Hv & w & log & Hfor & Hseq)]).
  - exfalso. revert Hz. simpl. lia.
  - exists n, s. split; [exact Hexec|]. split; [exact Hpc|].
    split; [exact Hfl|]. rewrite Hseq.
    rewrite Hfl, Hv in Hfor. vm_compute in Hfor.
    injection Hfor as <- <-. reflexivity.
Defined.
